(** * FMTP-LDM7: the FMTPv3 receiver and the LDM code around it

    Sources embedded here:
    - [src/UnidataFMTP/FMTPv3/receiver/fmtpRecvv3.h]: the declaration of the
      [fmtpRecvv3] constructor with its default arguments (module [Ctor]),
      and the receiver's member declarations ([ProdTracker], [TrackerMap],
      [EOPmap], [pSegMNG], [misBOPset], [prodidx_mcast], [msgqueue]).

    The member functions of [fmtpRecvv3] are only declared in the sources
    (there is no fmtpRecvv3.cpp, and no fmtpBase.h with the packet header);
    module [Recv] models the Product Tracker from the specification's text.

    Further sources embedded here:
    - [src/rpc/svc.c]: the services list, the request loop and the
      transport table (module [Svc]);
    - [src/protocol2/LdmProxy.c]: connecting to an LDM and sending a product
      with the LDM-5 messages (module [LdmProxy]);
    - [src/protocol2/remote.c]: the RPC buffer sizes of the remote peer
      (module [Remote]);
    - [src/mcast_lib/C/down7_manager.c]: the list of downstream LDM-7s
      (module [D7mgr]);
    - [src/misc/Future.c]: the future of an asynchronous task (module
      [Future]);
    - [src/log/log2log4c.c]: string copying, message trimming, logging
      levels and facilities (module [Log]). *)

From Stdlib Require Import ZArith Lia List.
From stdpp Require Import gmap strings list.

Local Open Scope Z_scope.

(** ** FMTPv3/receiver/fmtpRecvv3.h: the constructor's declaration *)

Module Ctor.

(** An argument at a call site. A [RecvProxy*] is an address, [None] being
    [NULL]. *)
Inductive arg :=
| AString (s : string)
| AUShort (n : Z)
| ARecvProxy (ptr : option positive).

Inductive ptype := TString | TUShort | TRecvProxyPtr.

(** A declared parameter: its name, type and default argument, if any. *)
Record param := Param {
  p_name : string;
  p_type : ptype;
  p_default : option arg
}.

(** [[
    fmtpRecvv3(const std::string    tcpAddr,
               const unsigned short tcpPort,
               const std::string    mcastAddr,
               const unsigned short mcastPort,
               RecvProxy*           notifier = NULL,
               const std::string    ifAddr = "0.0.0.0");
    ]] (fmtpRecvv3.h, lines 92-97). *)
Definition fmtpRecvv3_params : list param :=
  [ Param "tcpAddr" TString None;
    Param "tcpPort" TUShort None;
    Param "mcastAddr" TString None;
    Param "mcastPort" TUShort None;
    Param "notifier" TRecvProxyPtr (Some (ARecvProxy None));
    Param "ifAddr" TString (Some (AString "0.0.0.0")) ].

(** Passing an argument to a parameter of type [t]: the types must agree;
    an [unsigned short] keeps the value modulo 2^16. *)
Definition pass (t : ptype) (a : arg) : option arg :=
  match t, a with
  | TString, AString s => Some (AString s)
  | TUShort, AUShort n => Some (AUShort (n mod 2 ^ 16))
  | TRecvProxyPtr, ARecvProxy q => Some (ARecvProxy q)
  | _, _ => None
  end.

(** Positional binding of the arguments of a call to the declared
    parameters: a missing trailing argument takes the parameter's default,
    and the call is ill-formed ([None]) when a parameter without default gets
    no argument, when an argument has the wrong type, or when there are too
    many arguments. *)
Fixpoint bind_args (ps : list param) (args : list arg) : option (list arg) :=
  match ps, args with
  | [], [] => Some []
  | [], _ :: _ => None
  | p :: ps', a :: args' =>
      match pass (p_type p) a, bind_args ps' args' with
      | Some v, Some vs => Some (v :: vs)
      | _, _ => None
      end
  | p :: ps', [] =>
      match p_default p, bind_args ps' [] with
      | Some d, Some vs => Some (d :: vs)
      | _, _ => None
      end
  end.

(** The configuration members of the class (fmtpRecvv3.h, lines 271-284)
    that the constructor's parameters are named after. *)
Record Members := {
  tcpAddr : string;
  tcpPort : Z;
  mcastAddr : string;
  mcastPort : Z;
  notifier : option positive;
  ifAddr : string
}.

(** A constructor call: the bound parameters, or [None] for a call that does
    not match the declaration. *)
Definition fmtpRecvv3 (args : list arg) : option Members :=
  match bind_args fmtpRecvv3_params args with
  | Some [AString a; AUShort b; AString c; AUShort d; ARecvProxy n; AString i] =>
      Some {| tcpAddr := a; tcpPort := b; mcastAddr := c; mcastPort := d;
              notifier := n; ifAddr := i |}
  | _ => None
  end.

(** The number of parameters without a default argument. *)
Definition required_params (ps : list param) : nat :=
  length (List.filter (fun p => match p_default p with None => true | Some _ => false end) ps).

End Ctor.

(** ** The FMTPv3 receiver

    fmtpRecvv3.h declares the receiver's members and member functions; their
    bodies are not part of the sources.  The definitions of this module are
    modelled from the specification (sections 3 to 7), over the members the
    header declares: [trackermap], [EOPmap], [pSegMNG], [misBOPset],
    [prodidx_mcast], [msgqueue], [stopRequested] and the [notifier].  They
    are the operations of the Product Tracker on decoded headers (section
    4.D); reading and decoding packets is left out. *)

Module Recv.

(** *** Product indexes *)

(** Arithmetic on [uint32_t] wraps modulo 2^32. *)
Definition wrap32 (z : Z) : Z := z mod 2 ^ 32.

(** The two's-complement reading of the low 32 bits of [z] as an [int32_t]. *)
Definition int32_of (z : Z) : Z :=
  let r := z mod 2 ^ 32 in if r <? 2 ^ 31 then r else r - 2 ^ 32.

(** Modelled from the spec: the comparison of product indexes, whose code
    (the users of [prodidx_mcast]) is missing; section 3: index comparisons
    are signed 32-bit differences, [a - b] interpreted as int32 sign. *)
Definition idx_diff (a b : Z) : Z := int32_of (wrap32 (a - b)).

Definition idx_after (a b : Z) : bool := 0 <? idx_diff a b.

Definition idx_before (a b : Z) : bool := idx_diff a b <? 0.

(** *** Packets *)

(** Flag values of section 6. *)
Definition BOP : Z := 0x01.
Definition DATA : Z := 0x02.
Definition EOP : Z := 0x04.
Definition BOP_REQ : Z := 0x08.
Definition DATA_REQ : Z := 0x10.
Definition EOP_REQ : Z := 0x20.
Definition RETX_END : Z := 0x40.

(** Modelled from the spec: the FMTPv3 header type of fmtpBase.h, which is
    missing; section 3: [prodindex:u32 | seqnum:u32 | payload_len:u16 |
    flags:u16 | reserved:u32]. *)
Record Header := {
  prodindex : Z;
  seqnum : Z;
  payload_len : Z;
  flags : Z;
  reserved : Z
}.

(** What a BOP tells the receiver (sections 3 and 4.A): the product's size,
    its segment size and the metadata handed to the application. *)
Record BopMsg := {
  bop_prodsize : Z;
  bop_payload_len : Z;
  bop_metadata : list Z
}.

(** What the receiver is configured with: the parser of a BOP payload
    ([None]: the payload is too small), and the application's answer to a
    BOP notification ([false]: the product is rejected). *)
Record Config := {
  parseBOP : list Z -> option BopMsg;
  notify_of_bop : Z -> BopMsg -> bool
}.

(** *** State *)

(** [struct ProdTracker] (fmtpRecvv3.h, lines 65-72).  [prodptr] is where the
    application wants the product: [None] is the null pointer of a product
    the application rejected, otherwise the bytes stored so far, by offset.
    [seqnum_last] is the struct's [seqnum] (the header's field has that name
    here): the offset of the data-packet received last; [paylen] is the
    product's segment size. *)
Record ProdTracker := {
  prodsize : Z;
  prodptr : option (gmap Z (list Z));
  seqnum_last : Z;
  paylen : Z;
  numRetrans : Z
}.

(** An element of the retransmission-request queue: a header with the
    request's flag; [DATA_REQ] fills [seqnum] and [payload_len], the others
    use zeros (section 4.B). *)
Record INLReqMsg := {
  reqtype : Z;
  req_prodindex : Z;
  req_seqnum : Z;
  req_payload_len : Z
}.

Definition bop_req (p : Z) : INLReqMsg :=
  {| reqtype := BOP_REQ; req_prodindex := p; req_seqnum := 0; req_payload_len := 0 |}.

Definition data_req (p s l : Z) : INLReqMsg :=
  {| reqtype := DATA_REQ; req_prodindex := p; req_seqnum := s; req_payload_len := l |}.

Definition retx_end (p : Z) : INLReqMsg :=
  {| reqtype := RETX_END; req_prodindex := p; req_seqnum := 0; req_payload_len := 0 |}.

(** A call of the application's notifier. *)
Inductive Call :=
| BopAccepted (p : Z)
| BopRejected (p : Z)
| ProductDelivered (p : Z)
| ProductMissed (p : Z)
| ProductCancelled (p : Z).

(** The receiver.  [trackermap] ([TrackerMap]), [EOPmap] ([EOPStatusMap]),
    [pSegMNG] (the received-segment bitmap of each product), [misBOPset],
    [prodidx_mcast] (the highest index seen on the multicast channel, [None]
    before the first BOP), [msgqueue] and [stopRequested] are members of the
    class (fmtpRecvv3.h, lines 271-328); [calls] are the calls made on the
    member [notifier], oldest first. *)
Record State := {
  trackermap : gmap Z ProdTracker;
  EOPmap : gmap Z bool;
  pSegMNG : gmap Z (gset Z);
  misBOPset : gset Z;
  prodidx_mcast : option Z;
  msgqueue : list INLReqMsg;
  stopRequested : bool;
  calls : list Call
}.

Definition init : State :=
  {| trackermap := ∅; EOPmap := ∅; pSegMNG := ∅; misBOPset := ∅;
     prodidx_mcast := None; msgqueue := []; stopRequested := false;
     calls := [] |}.

Definition with_trackermap (m : gmap Z ProdTracker) (s : State) : State :=
  {| trackermap := m; EOPmap := EOPmap s; pSegMNG := pSegMNG s;
     misBOPset := misBOPset s; prodidx_mcast := prodidx_mcast s;
     msgqueue := msgqueue s; stopRequested := stopRequested s;
     calls := calls s |}.

Definition with_EOPmap (m : gmap Z bool) (s : State) : State :=
  {| trackermap := trackermap s; EOPmap := m; pSegMNG := pSegMNG s;
     misBOPset := misBOPset s; prodidx_mcast := prodidx_mcast s;
     msgqueue := msgqueue s; stopRequested := stopRequested s;
     calls := calls s |}.

Definition with_pSegMNG (m : gmap Z (gset Z)) (s : State) : State :=
  {| trackermap := trackermap s; EOPmap := EOPmap s; pSegMNG := m;
     misBOPset := misBOPset s; prodidx_mcast := prodidx_mcast s;
     msgqueue := msgqueue s; stopRequested := stopRequested s;
     calls := calls s |}.

Definition with_misBOPset (b : gset Z) (s : State) : State :=
  {| trackermap := trackermap s; EOPmap := EOPmap s; pSegMNG := pSegMNG s;
     misBOPset := b; prodidx_mcast := prodidx_mcast s;
     msgqueue := msgqueue s; stopRequested := stopRequested s;
     calls := calls s |}.

Definition with_prodidx_mcast (h : option Z) (s : State) : State :=
  {| trackermap := trackermap s; EOPmap := EOPmap s; pSegMNG := pSegMNG s;
     misBOPset := misBOPset s; prodidx_mcast := h;
     msgqueue := msgqueue s; stopRequested := stopRequested s;
     calls := calls s |}.

Definition with_msgqueue (q : list INLReqMsg) (s : State) : State :=
  {| trackermap := trackermap s; EOPmap := EOPmap s; pSegMNG := pSegMNG s;
     misBOPset := misBOPset s; prodidx_mcast := prodidx_mcast s;
     msgqueue := q; stopRequested := stopRequested s;
     calls := calls s |}.

Definition with_stopRequested (b : bool) (s : State) : State :=
  {| trackermap := trackermap s; EOPmap := EOPmap s; pSegMNG := pSegMNG s;
     misBOPset := misBOPset s; prodidx_mcast := prodidx_mcast s;
     msgqueue := msgqueue s; stopRequested := b;
     calls := calls s |}.

Definition with_calls (c : list Call) (s : State) : State :=
  {| trackermap := trackermap s; EOPmap := EOPmap s; pSegMNG := pSegMNG s;
     misBOPset := misBOPset s; prodidx_mcast := prodidx_mcast s;
     msgqueue := msgqueue s; stopRequested := stopRequested s;
     calls := c |}.

(** *** The retransmission-request queue *)

(** The queue is bounded; on overflow the oldest request is dropped
    (section 5). *)
Definition RETX_QUEUE_CAP : nat := 4096.

Definition enqueue (r : INLReqMsg) (s : State) : State :=
  let q := msgqueue s ++ [r] in
  with_msgqueue (if Nat.ltb RETX_QUEUE_CAP (length q) then tail q else q) s.

Definition enqueue_all (rs : list INLReqMsg) (s : State) : State :=
  fold_left (fun s r => enqueue r s) rs s.

(** *** Tracker transitions *)

Definition tracked (s : State) (p : Z) : bool :=
  bool_decide (p ∈ dom (trackermap s)).

(** Modelled from the spec: [pushMissingBopReq], [addUnrqBOPinSet] and
    [rmMisBOPinSet], whose bodies are missing.  The first pushes a BOP-REQ
    onto the request queue; the other two add an index to, and remove it
    from, the Missing-BOP set and tell whether the set changed. *)
Definition pushMissingBopReq (p : Z) (s : State) : State :=
  enqueue (bop_req p) s.

Definition addUnrqBOPinSet (p : Z) (s : State) : bool * State :=
  (negb (bool_decide (p ∈ misBOPset s)),
   with_misBOPset ({[p]} ∪ misBOPset s) s).

Definition rmMisBOPinSet (p : Z) (s : State) : bool * State :=
  (bool_decide (p ∈ misBOPset s),
   with_misBOPset (misBOPset s ∖ {[p]}) s).

(** Sections 3 and 4.A: the index is added to the Missing-BOP set and a
    BOP-REQ is queued; requests are not coalesced (section 4.B). *)
Definition request_bop (p : Z) (s : State) : State :=
  pushMissingBopReq p (snd (addUnrqBOPinSet p s)).

(** Modelled from the spec: [getEOPStatus], [initEOPStatus], [setEOPStatus]
    and [clearEOPStatus], whose bodies are missing: whether the EOP of a
    product has been seen. *)
Definition getEOPStatus (p : Z) (s : State) : bool :=
  default false (EOPmap s !! p).

Definition initEOPStatus (p : Z) (s : State) : State :=
  with_EOPmap (<[p := false]> (EOPmap s)) s.

Definition setEOPStatus (p : Z) (s : State) : State :=
  with_EOPmap (<[p := true]> (EOPmap s)) s.

Definition clearEOPStatus (p : Z) (s : State) : State :=
  with_EOPmap (delete p (EOPmap s)) s.

(** The bitmap of the product: the indexes of the segments received. *)
Definition bitmap (p : Z) (s : State) : gset Z :=
  default ∅ (pSegMNG s !! p).

Definition new_tracker (cfg : Config) (p : Z) (m : BopMsg) : ProdTracker :=
  {| prodsize := bop_prodsize m;
     prodptr := if notify_of_bop cfg p m then Some ∅ else None;
     seqnum_last := 0; paylen := bop_payload_len m; numRetrans := 0 |}.

(** A BOP is accepted: the index leaves the Missing-BOP set (if it was
    there), an entry is allocated and the application is notified. *)
Definition allocate (cfg : Config) (p : Z) (m : BopMsg) (s : State) : State :=
  let s1 := initEOPStatus p (snd (rmMisBOPinSet p s)) in
  with_calls
    (calls s1 ++ [if notify_of_bop cfg p m then BopAccepted p else BopRejected p])
    (with_pSegMNG (<[p := ∅]> (pSegMNG s1))
       (with_trackermap (<[p := new_tracker cfg p m]> (trackermap s1)) s1)).

(** The entry is freed. *)
Definition free_entry (p : Z) (s : State) : State :=
  with_pSegMNG (delete p (pSegMNG s))
    (clearEOPStatus p (with_trackermap (delete p (trackermap s)) s)).

(** COMPLETE to DELIVERED: the entry is freed and delivery is notified (a
    rejected product was accounted but not stored, and is not handed
    over). *)
Definition deliver (p : Z) (t : ProdTracker) (s : State) : State :=
  let s1 := free_entry p s in
  with_calls
    (calls s1 ++ (if prodptr t is Some _ then [ProductDelivered p] else []))
    s1.

(** The product is given up: ABANDONED, with the missed-hook. *)
Definition abandon (p : Z) (s : State) : State :=
  let s1 := free_entry p (snd (rmMisBOPinSet p s)) in
  with_calls (calls s1 ++ [ProductMissed p]) s1.

(** *** Segments of a product *)

Definition seg_index (t : ProdTracker) (sn : Z) : Z := sn / paylen t.

(** Section 4.A: [i * payload_len + payload_len <= prodsize + payload_len - 1]
    and [seqnum % payload_len == 0]. *)
Definition seg_valid (t : ProdTracker) (sn : Z) : bool :=
  let i := seg_index t sn in
  (0 <=? sn)
  && (i * paylen t + paylen t <=? prodsize t + paylen t - 1)
  && (sn mod paylen t =? 0).

(** [ceil (prodsize / payload_len)]. *)
Definition nsegments (t : ProdTracker) : Z :=
  (prodsize t + paylen t - 1) / paylen t.

Definition seg_indexes (t : ProdTracker) : list Z := seqZ 0 (nsegments t).

Definition received (bm : gset Z) (i : Z) : bool := bool_decide (i ∈ bm).

Definition bitmap_full (t : ProdTracker) (bm : gset Z) : bool :=
  forallb (received bm) (seg_indexes t).

(** The length of the received prefix of [l]. *)
Fixpoint edge_of (bm : gset Z) (l : list Z) : Z :=
  match l with
  | [] => 0
  | i :: l' => if received bm i then 1 + edge_of bm l' else 0
  end.

Definition contiguous_edge (t : ProdTracker) (bm : gset Z) : Z :=
  edge_of bm (seg_indexes t).

(** The missing segments from the contiguous edge up to [i - 1]. *)
Definition missing_before (t : ProdTracker) (bm : gset Z) (i : Z) : list Z :=
  List.filter (fun j => negb (received bm j))
    (seqZ (contiguous_edge t bm) (i - contiguous_edge t bm)).

Definition missing_segments (t : ProdTracker) (bm : gset Z) : list Z :=
  List.filter (fun j => negb (received bm j)) (seg_indexes t).

(** The length of segment [j]: the last one may be short. *)
Definition seg_len (t : ProdTracker) (j : Z) : Z :=
  Z.min (paylen t) (prodsize t - j * paylen t).

Definition data_req_for (p : Z) (t : ProdTracker) (j : Z) : INLReqMsg :=
  data_req p (j * paylen t) (seg_len t j).

(** The payload is copied to where the application wants it (nowhere for a
    rejected product), and [n] more requests are accounted to the product. *)
Definition store_segment (sn : Z) (payload : list Z) (n : nat)
    (t : ProdTracker) : ProdTracker :=
  {| prodsize := prodsize t;
     prodptr := (fun buf => <[sn := payload]> buf) <$> prodptr t;
     seqnum_last := sn; paylen := paylen t;
     numRetrans := wrap32 (numRetrans t + Z.of_nat n) |}.

Definition add_numRetrans (n : nat) (t : ProdTracker) : ProdTracker :=
  {| prodsize := prodsize t; prodptr := prodptr t;
     seqnum_last := seqnum_last t; paylen := paylen t;
     numRetrans := wrap32 (numRetrans t + Z.of_nat n) |}.

(** The segment's bit is set. *)
Definition set_bit (p i : Z) (s : State) : State :=
  with_pSegMNG (<[p := {[i]} ∪ bitmap p s]> (pSegMNG s)) s.

(** The entry is written back, or the product delivered when its EOP has
    been seen and its bitmap is full. *)
Definition finish (p : Z) (t : ProdTracker) (s : State) : State :=
  if getEOPStatus p s && bitmap_full t (bitmap p s) then deliver p t s
  else with_trackermap (<[p := t]> (trackermap s)) s.

(** *** The multicast path (section 4.A) *)

(** The indexes strictly between [hi] and [p], oldest first. *)
Definition gap_indexes (hi p : Z) : list Z :=
  map (fun j => wrap32 (hi + j)) (seqZ 1 (idx_diff p hi - 1)).

(** A BOP is requested for an index of the gap that has no entry. *)
Definition request_gap_bop (s : State) (i : Z) : State :=
  if tracked s i then s else request_bop i s.

(** Modelled from the spec: [requestMissingBops], whose body is missing;
    section 4.A: a BOP-REQ for each missing index of the gap. *)
Definition requestMissingBops (openleft openright : Z) (s : State) : State :=
  fold_left request_gap_bop (gap_indexes openleft openright) s.

(** An out-of-order BOP is stale when it is older than the highest index
    seen and not awaited in the Missing-BOP set (section 4.D). *)
Definition stale_bop (s : State) (p : Z) : bool :=
  match prodidx_mcast s with
  | Some hi => negb (bool_decide (p ∈ misBOPset s)) && idx_before p hi
  | None => false
  end.

(** Modelled from the spec: [mcastBOPHandler] with [BOPHandler], whose
    bodies are missing.  A BOP whose payload is too small is dropped, and
    so are a BOP of an index already tracked (section 7) and a stale one
    (section 4.D).  Otherwise (section 4.A) the index leaves the Missing-BOP
    set if it was there, an entry is allocated and the application notified;
    when the index is past the highest one seen, a BOP is requested for each
    missing index of the gap and the index becomes the highest seen. *)
Definition mcastBOPHandler (cfg : Config) (h : Header) (payload : list Z)
    (s : State) : State :=
  let p := prodindex h in
  match parseBOP cfg payload with
  | None => s
  | Some m =>
      if tracked s p then s
      else if stale_bop s p then s
      else
        let s1 := allocate cfg p m s in
        match prodidx_mcast s with
        | None => with_prodidx_mcast (Some p) s1
        | Some hi =>
            if idx_after p hi
            then with_prodidx_mcast (Some p) (requestMissingBops hi p s1)
            else s1
        end
  end.

(** Modelled from the spec: [recvMemData] with [readMcastData] and
    [requestAnyMissingData], whose bodies are missing; section 4.A.  Without
    an entry the index is added to the Missing-BOP set and a BOP-REQ is
    queued; the payload is dropped.  With an entry the segment is validated
    (an invalid one is dropped); a duplicate is a no-op (section 4.D);
    otherwise the payload is stored, the bit set, and a DATA-REQ queued for
    each missing segment from the contiguous edge up to the one before it
    (none for a rejected product, section 7); the product is delivered if
    this completes it. *)
Definition recvMemData (h : Header) (payload : list Z) (s : State) : State :=
  let p := prodindex h in
  match trackermap s !! p with
  | None => request_bop p s
  | Some t =>
      if negb (seg_valid t (seqnum h)) then s
      else if received (bitmap p s) (seg_index t (seqnum h)) then s
      else
        let reqs :=
          if prodptr t is Some _
          then map (data_req_for p t)
                 (missing_before t (bitmap p s) (seg_index t (seqnum h)))
          else [] in
        finish p (store_segment (seqnum h) payload (length reqs) t)
          (set_bit p (seg_index t (seqnum h)) (enqueue_all reqs s))
  end.

(** Modelled from the spec: [mcastEOPHandler] with [EOPHandler], whose
    bodies are missing.  Without an entry the index is added to the
    Missing-BOP set and a BOP-REQ is queued (section 3).  With an entry
    (section 4.A) the EOP is marked as seen; if the bitmap is full the
    product is delivered and the entry freed, otherwise a DATA-REQ is queued
    for each missing segment. *)
Definition mcastEOPHandler (h : Header) (s : State) : State :=
  let p := prodindex h in
  match trackermap s !! p with
  | None => request_bop p s
  | Some t =>
      let reqs :=
        if prodptr t is Some _
        then map (data_req_for p t) (missing_segments t (bitmap p s))
        else [] in
      finish p (add_numRetrans (length reqs) t)
        (setEOPStatus p (enqueue_all reqs s))
  end.

(** [on_mcast_packet(header, payload)] of section 4.D: only BOP, DATA and
    EOP are multicast; a packet with any other flag is dropped. *)
Definition on_mcast_packet (cfg : Config) (h : Header) (payload : list Z)
    (s : State) : State :=
  if flags h =? BOP then mcastBOPHandler cfg h payload s
  else if flags h =? DATA then recvMemData h payload s
  else if flags h =? EOP then mcastEOPHandler h s
  else s.

(** *** The retransmission path (section 4.C) *)

(** Modelled from the spec: [retxBOPHandler], whose body is missing: a
    retransmitted BOP creates the entry of an index of the Missing-BOP set
    (section 3, lifecycle); one that comes after the multicast BOP is
    ignored (section 4.D).  It requests nothing. *)
Definition retxBOPHandler (cfg : Config) (h : Header) (payload : list Z)
    (s : State) : State :=
  let p := prodindex h in
  match parseBOP cfg payload with
  | None => s
  | Some m =>
      if tracked s p then s
      else if bool_decide (p ∈ misBOPset s) then allocate cfg p m s
      else s
  end.

(** A retransmitted segment is handled like a multicast one (section 4.C),
    but for two things: it triggers no DATA-REQ for a gap, and it is dropped
    silently when its bit is already set. *)
Definition retxDataHandler (h : Header) (payload : list Z) (s : State) : State :=
  let p := prodindex h in
  match trackermap s !! p with
  | None => request_bop p s
  | Some t =>
      if negb (seg_valid t (seqnum h)) then s
      else if received (bitmap p s) (seg_index t (seqnum h)) then s
      else finish p (store_segment (seqnum h) payload 0 t)
             (set_bit p (seg_index t (seqnum h)) s)
  end.

(** Modelled from the spec: [retxEOPHandler], whose body is missing: like
    the multicast EOP, without the DATA-REQs. *)
Definition retxEOPHandler (h : Header) (s : State) : State :=
  let p := prodindex h in
  match trackermap s !! p with
  | None => request_bop p s
  | Some t => finish p t (setEOPStatus p s)
  end.

(** [on_retx_end(prodindex)] (sections 4.C and 7): the sender cannot
    retransmit anything of the product; a product that is tracked, or whose
    BOP is awaited, is abandoned, with the missed-hook. *)
Definition on_retx_end (p : Z) (s : State) : State :=
  if tracked s p || bool_decide (p ∈ misBOPset s) then abandon p s else s.

(** [on_retx_packet(header, payload)] of section 4.D. *)
Definition on_retx_packet (cfg : Config) (h : Header) (payload : list Z)
    (s : State) : State :=
  if flags h =? BOP then retxBOPHandler cfg h payload s
  else if flags h =? DATA then retxDataHandler h payload s
  else if flags h =? EOP then retxEOPHandler h s
  else if flags h =? RETX_END then on_retx_end (prodindex h) s
  else s.

(** *** Timer, requester and shutdown *)

(** [on_timer_expired(prodindex)] (section 4.E): a complete entry is
    delivered; any other is abandoned and a RETX_END is queued; an absent
    entry was already delivered or freed. *)
Definition on_timer_expired (p : Z) (s : State) : State :=
  match trackermap s !! p with
  | None => s
  | Some t =>
      if getEOPStatus p s && bitmap_full t (bitmap p s) then deliver p t s
      else enqueue (retx_end p) (abandon p s)
  end.

(** Modelled from the spec: one turn of [retxRequester], whose body is
    missing: a request leaves the queue and is written (section 4.B). *)
Definition retxRequester (s : State) : State :=
  with_msgqueue (tail (msgqueue s)) s.

(** [shutdown()]: every live entry is dropped, with the notifier's
    cancellation hook. *)
Definition shutdown (s : State) : State :=
  with_stopRequested true
    (with_calls (calls s ++ map ProductCancelled (elements (dom (trackermap s))))
       (with_pSegMNG ∅ (with_EOPmap ∅ (with_trackermap ∅ s)))).

(** *** The receiver as a whole *)

(** What happens to the Tracker: a packet from the Multicast Reader or from
    the Retx Receiver, a request written by the Retx Sender, an error on the
    retransmission channel, a deadline, a stop. *)
Inductive Event :=
| McastPacket (h : Header) (payload : list Z)
| RetxPacket (h : Header) (payload : list Z)
| RetxRequestWritten
| RetxSockError
| TimerExpired (p : Z)
| Stop.

(** One event of the receiver.  An error on the retransmission channel is
    fatal and initiates the shutdown (section 7).  After a stop the threads
    are gone and nothing is processed. *)
Definition step (cfg : Config) (s : State) (ev : Event) : State :=
  if stopRequested s then s
  else
    match ev with
    | McastPacket h payload => on_mcast_packet cfg h payload s
    | RetxPacket h payload => on_retx_packet cfg h payload s
    | RetxRequestWritten => retxRequester s
    | RetxSockError => shutdown s
    | TimerExpired p => on_timer_expired p s
    | Stop => shutdown s
    end.

Definition run (cfg : Config) (evs : list Event) (s : State) : State :=
  fold_left (step cfg) evs s.

(** *** Packets for the examples *)

(** A big-endian (network byte order) unsigned integer and its [n]-byte
    encoding. *)
Definition be (bytes : list Z) : Z :=
  fold_left (fun acc b => acc * 256 + b mod 256) bytes 0.

Fixpoint to_be (n : nat) (v : Z) : list Z :=
  match n with
  | O => []
  | S n' => (v / 256 ^ Z.of_nat n') mod 256 :: to_be n' v
  end.

(** The [n] bytes of [payload] from offset [off]. *)
Definition field (off n : nat) (payload : list Z) : list Z :=
  take n (drop off payload).

(** A parser of the BOP payload of section 3,
    [prodsize:u32 | metadata_len:u16 | metadata[metadata_len]], for a sender
    that cuts every product into segments of [seglen] bytes. *)
Definition parse_bop (seglen : Z) (payload : list Z) : option BopMsg :=
  if Z.of_nat (length payload) <? 6 then None
  else
    let mlen := be (field 4 2 payload) in
    if Z.of_nat (length payload) <? 6 + mlen then None
    else Some {| bop_prodsize := be (field 0 4 payload);
                 bop_payload_len := seglen;
                 bop_metadata := take (Z.to_nat mlen) (drop 6 payload) |}.

Definition bop_payload (prodsize : Z) (metadata : list Z) : list Z :=
  to_be 4 prodsize ++ to_be 2 (Z.of_nat (length metadata)) ++ metadata.

(** The header of a packet with the flag [fl] and [n] bytes of payload. *)
Definition header_of (p sn fl : Z) (n : nat) : Header :=
  {| prodindex := p; seqnum := sn; payload_len := Z.of_nat n;
     flags := fl; reserved := 0 |}.

(** The three multicast packets, as events of a channel. *)
Definition bop_of (p prodsize : Z) : Header * list Z :=
  (header_of p 0 BOP (length (bop_payload prodsize [])), bop_payload prodsize []).

Definition data_of (p sn : Z) (n : nat) : Header * list Z :=
  (header_of p sn DATA n, repeat 7 n).

Definition eop_of (p : Z) : Header * list Z := (header_of p 0 EOP 0, []).

Definition mcast (pkt : Header * list Z) : Event := McastPacket pkt.1 pkt.2.

Definition retx (pkt : Header * list Z) : Event := RetxPacket pkt.1 pkt.2.

(** A receiver fed by a sender that uses 1000-byte segments, for an
    application that accepts every product. *)
Definition typical_cfg : Config :=
  {| parseBOP := parse_bop 1000; notify_of_bop := fun _ _ => true |}.

(** *** A BOP has been processed *)



(** *** A DATA packet answered by a BOP request *)


End Recv.

(** ** rpc/svc.c: the RPC service dispatcher *)

Module Svc.

(** [unsigned long] is taken as 64 bits wide (LP64); [(unsigned long)(-1)]
    is its largest value. *)
Definition ULONG_MAX : Z := 2 ^ 64 - 1.

(** A node of the services list, without its [sc_next] link: the list
    [svc_head] is a [list svc_callout], first node first.  A dispatch routine
    is known by its address. *)
Record svc_callout := Callout {
  sc_prog : Z;
  sc_vers : Z;
  sc_dispatch : Z
}.

(** [svc_find]: the loop walks the list from [s] with the nodes already
    passed in [p] (the last of them is [*prev], none is [NULL_SVC]); it
    returns the nodes before the first match, the match and the nodes after
    it, or [None] for [NULL_SVC]. *)
Fixpoint svc_find_loop (p s : list svc_callout) (prog vers : Z)
  : option (list svc_callout * svc_callout * list svc_callout) :=
  match s with
  | [] => None
  | c :: next =>
      if (sc_prog c =? prog) && (sc_vers c =? vers) then Some (p, c, next)
      else svc_find_loop (p ++ [c]) next prog vers
  end.

Definition svc_find (svc_head : list svc_callout) (prog vers : Z) :=
  svc_find_loop [] svc_head prog vers.

(** The label [pmap_it] of [svc_register]: [pmap_set] is called only for a
    non-zero protocol; [pmap_set] is what that call returns. *)
Definition pmap_it (protocol : Z) (pmap_set : bool) : bool :=
  if protocol =? 0 then true else pmap_set.

(** [svc_register]: [mem_alloc] tells whether the allocation of a node
    succeeds.  Returns the [bool_t] and the new list. *)
Definition svc_register (svc_head : list svc_callout)
    (prog vers dispatch protocol : Z) (mem_alloc pmap_set : bool)
  : bool * list svc_callout :=
  match svc_find svc_head prog vers with
  | Some (_, s, _) =>
      if sc_dispatch s =? dispatch then (pmap_it protocol pmap_set, svc_head)
      else (false, svc_head)
  | None =>
      if mem_alloc
      then (pmap_it protocol pmap_set, Callout prog vers dispatch :: svc_head)
      else (false, svc_head)
  end.

(** [svc_unregister]: the found node is unlinked from its predecessor, or
    from [svc_head]. *)
Definition svc_unregister (svc_head : list svc_callout) (prog vers : Z)
  : list svc_callout :=
  match svc_find svc_head prog vers with
  | None => svc_head
  | Some (before, _, next) => before ++ next
  end.

(** What [svc_getreqset] and [svc_getreqsock] do with a received call. *)
Inductive served :=
  | svcerr_auth
  | dispatched (sc_dispatch : Z)
  | svcerr_progvers (low_vers high_vers : Z)
  | svcerr_noprog.

(** The loop that matches a message with a registered service. *)
Fixpoint match_loop (s : list svc_callout) (rq_prog rq_vers : Z)
    (prog_found : bool) (low_vers high_vers : Z) : served :=
  match s with
  | [] =>
      if prog_found then svcerr_progvers low_vers high_vers
      else svcerr_noprog
  | c :: next =>
      if sc_prog c =? rq_prog then
        if sc_vers c =? rq_vers then dispatched (sc_dispatch c)
        else match_loop next rq_prog rq_vers true
               (if sc_vers c <? low_vers then sc_vers c else low_vers)
               (if high_vers <? sc_vers c then sc_vers c else high_vers)
      else match_loop next rq_prog rq_vers prog_found low_vers high_vers
  end.

(** The body of the receive loop for one received message; [auth_ok] tells
    whether [_authenticate] returned [AUTH_OK]. *)
Definition serve (svc_head : list svc_callout) (auth_ok : bool)
    (rq_prog rq_vers : Z) : served :=
  if auth_ok then match_loop svc_head rq_prog rq_vers false ULONG_MAX 0
  else svcerr_auth.

(** A transport handle: its address and its socket. *)
Record SVCXPRT := Xprt {
  xp_addr : Z;
  xp_sock : Z
}.

(** The table [xports] (the [FD_SETSIZE] variant, line 58) and the
    descriptor set [svc_fdset].  [xports] is the null pointer, [None], until
    [xprt_register] allocates the table.  An allocated table maps a socket
    to what its cell holds: a transport handle, or the null pointer, [None].
    Nothing in the file initialises the memory that [mem_alloc] returns: a
    cell that is absent from the map was never written, and its value is
    not known. *)
Record Xports := {
  xports : option (gmap Z (option SVCXPRT));
  svc_fdset : gset Z
}.

(** The program starts with [xports == NULL] and an empty set. *)
Definition no_xports : Xports := {| xports := None; svc_fdset := ∅ |}.

(** [xprt_register] (lines 94-116), for a table of [dtablesize] entries
    ([_rpc_dtablesize()], taken to be at most [FD_SETSIZE]).  [mem_alloc]
    tells whether the allocation succeeds, when there is one.  Storing
    through a null [xports], or at a negative index, has no defined result:
    [None]. *)
Definition xprt_register (dtablesize : Z) (mem_alloc : bool) (x : Xports)
    (xprt : SVCXPRT) : option Xports :=
  let sock := xp_sock xprt in
  let table :=
    match xports x with
    | Some t => Some t
    | None => if mem_alloc then Some ∅ else None
    end in
  if sock <? dtablesize
  then
    match table with
    | None => None
    | Some t =>
        if sock <? 0 then None
        else Some {| xports := Some (<[sock := Some xprt]> t);
                     svc_fdset := {[sock]} ∪ svc_fdset x |}
    end
  else Some {| xports := table; svc_fdset := svc_fdset x |}.

(** [xprt_unregister] (lines 121-138).  [xports[sock]] is read without a
    test of [xports]: reading through the null pointer, at a negative index,
    or a cell that was never written has no defined result, [None].
    Transport handles are compared by address. *)
Definition xprt_unregister (dtablesize : Z) (x : Xports) (xprt : SVCXPRT)
  : option Xports :=
  let sock := xp_sock xprt in
  if sock <? dtablesize
  then
    match xports x with
    | None => None
    | Some t =>
        if sock <? 0 then None
        else
          match t !! sock with
          | None => None
          | Some cell =>
              if bool_decide (xp_addr <$> cell = Some (xp_addr xprt))
              then Some {| xports := Some (<[sock := None]> t);
                           svc_fdset := svc_fdset x ∖ {[sock]} |}
              else Some x
          end
    end
  else Some x.

(** A history of registrations: the calls made on the services list. *)
Inductive svc_call :=
  | Register (prog vers dispatch protocol : Z) (mem_alloc pmap_set : bool)
  | Unregister (prog vers : Z).

Definition svc_step (svc_head : list svc_callout) (c : svc_call) :=
  match c with
  | Register prog vers dispatch protocol mem_alloc pmap_set =>
      (svc_register svc_head prog vers dispatch protocol mem_alloc pmap_set).2
  | Unregister prog vers => svc_unregister svc_head prog vers
  end.

Definition svc_run (calls : list svc_call) : list svc_callout :=
  fold_left svc_step calls [].

(** The program and version numbers of the nodes. *)
Definition svc_keys (svc_head : list svc_callout) : list (Z * Z) :=
  map (fun c => (sc_prog c, sc_vers c)) svc_head.

(** The versions registered for a program. *)
Definition versions_of (svc_head : list svc_callout) (prog : Z) : list Z :=
  map sc_vers (List.filter (fun c => sc_prog c =? prog) svc_head).

(** The transport that the table holds for a socket. *)
Definition xprt_at (x : Xports) (sock : Z) : option SVCXPRT :=
  match xports x with
  | None => None
  | Some t => default None (t !! sock)
  end.

(** A history of the transport table: the calls made on it. *)
Inductive xprt_call :=
  | XprtRegister (mem_alloc : bool) (xprt : SVCXPRT)
  | XprtUnregister (xprt : SVCXPRT).

Definition xprt_step (dtablesize : Z) (x : option Xports) (c : xprt_call)
  : option Xports :=
  match x with
  | None => None
  | Some x =>
      match c with
      | XprtRegister mem_alloc xprt => xprt_register dtablesize mem_alloc x xprt
      | XprtUnregister xprt => xprt_unregister dtablesize x xprt
      end
  end.

(** The calls, from the start of the program. *)
Definition xprt_run (dtablesize : Z) (calls : list xprt_call)
  : option Xports :=
  fold_left (xprt_step dtablesize) calls (Some no_xports).

(** The transport was registered by one of the calls. *)
Definition registered (calls : list xprt_call) (xprt : SVCXPRT) : Prop :=
  exists mem_alloc, XprtRegister mem_alloc xprt ∈ calls.

(** The table and the descriptor set go together. *)
Record xports_inv (dtablesize : Z) (calls : list xprt_call) (x : Xports)
  : Prop := {
  inv_fdset : forall sock, sock ∈ svc_fdset x <-> is_Some (xprt_at x sock);
  inv_sock : forall sock xprt, xprt_at x sock = Some xprt ->
               xp_sock xprt = sock /\ 0 <= sock < dtablesize
               /\ registered calls xprt
}.

End Svc.

(** ** protocol2/LdmProxy.c: the proxy for a remote LDM *)

Module LdmProxy.

(** The status of a proxy call; [LP_OK] is the status 0 of the code. *)
Inductive LdmProxyStatus :=
  | LP_OK | LP_SYSTEM | LP_TIMEDOUT | LP_HOSTUNREACH | LP_RPC_ERROR
  | LP_LDM_ERROR | LP_UNWANTED.

(** The status of an RPC call, as far as the code tells them apart:
    [RPC_SUCCESS] is 0. *)
Inductive clnt_stat := RPC_SUCCESS | RPC_TIMEDOUT | RPC_FAILED.

(** The reply codes of an LDM. *)
Inductive ldm_errt :=
  | OK | SHUTTING_DOWN | BADPATTERN | DONT_SEND | RESEND | RESTART
  | REDIRECT | RECLASS.

(** The error codes of [ldm_clnttcp_create_vers], as far as the code tells
    them apart. *)
Inductive ldm_clnt_error :=
  | LDM_CLNT_UNKNOWN_HOST | LDM_CLNT_TIMED_OUT | LDM_CLNT_NO_CONNECT
  | LDM_CLNT_BAD_VERSION | LDM_CLNT_SYSTEM_ERROR.

Definition is_OK (c : ldm_errt) : bool :=
  match c with OK => true | _ => false end.

Definition is_LP_OK (s : LdmProxyStatus) : bool :=
  match s with LP_OK => true | _ => false end.

(** [getStatus], on the [re_status] that [clnt_geterr] gives. *)
Definition getStatus (re_status : clnt_stat) : LdmProxyStatus :=
  match re_status with
  | RPC_SUCCESS => LP_OK
  | RPC_TIMEDOUT => LP_TIMEDOUT
  | RPC_FAILED => LP_RPC_ERROR
  end.

(** [convertStatus]; [None] is the null error object. *)
Definition convertStatus (error : option ldm_clnt_error) : LdmProxyStatus :=
  match error with
  | None => LP_OK
  | Some LDM_CLNT_UNKNOWN_HOST => LP_HOSTUNREACH
  | Some LDM_CLNT_TIMED_OUT => LP_TIMEDOUT
  | Some LDM_CLNT_NO_CONNECT => LP_RPC_ERROR
  | Some LDM_CLNT_BAD_VERSION => LP_LDM_ERROR
  | Some _ => LP_SYSTEM
  end.

(** What [lp_new] needs of its environment: whether [malloc] and [strdup]
    succeed, and what [ldm_clnttcp_create_vers] returns for a version. *)
Record NewEnv := {
  malloc_ok : bool;
  strdup_ok : bool;
  ldm_clnttcp_create_vers : Z -> option ldm_clnt_error
}.

(** What [lp_new] leaves: its status, the version of the proxy stored in
    [*instance] ([None]: [*instance] is not set), and the versions it tried
    to connect with, in order. *)
Record NewResult := {
  new_status : LdmProxyStatus;
  instance : option Z;
  tried : list Z
}.

Definition lp_new (env : NewEnv) : NewResult :=
  if negb (malloc_ok env) then
    {| new_status := LP_SYSTEM; instance := None; tried := [] |}
  else if negb (strdup_ok env) then
    {| new_status := LP_SYSTEM; instance := None; tried := [] |}
  else
    match ldm_clnttcp_create_vers env 6 with
    | None => {| new_status := LP_OK; instance := Some 6; tried := [6] |}
    | Some LDM_CLNT_BAD_VERSION =>
        match ldm_clnttcp_create_vers env 5 with
        | None =>
            {| new_status := LP_OK; instance := Some 5; tried := [6; 5] |}
        | Some e =>
            {| new_status := convertStatus (Some e); instance := None;
               tried := [6; 5] |}
        end
    | Some e =>
        {| new_status := convertStatus (Some e); instance := None;
           tried := [6] |}
    end.

(** A BLKDATA packet: its number and its bytes ([dbuf_len] is their
    number). *)
Record datapkt := {
  pktnum : Z;
  dbuf : list Z
}.

(** The LDM-5 messages the proxy sends. *)
Inductive request :=
  | COMINGSOON (sz pktsz : Z)
  | BLKDATA (pkt : datapkt)
  | HEREIS (data : list Z).

(** What a call leaves: the RPC status and the reply code. *)
Record reply := {
  re_status : clnt_stat;
  code : ldm_errt
}.

(** The message was answered, and with OK. *)
Definition accepted (ldm : request -> reply) (r : request) : Prop :=
  re_status (ldm r) = RPC_SUCCESS /\ code (ldm r) = OK.

(** The bytes a message carries. *)
Definition data_of (r : request) : list Z :=
  match r with
  | COMINGSOON _ _ => []
  | BLKDATA pkt => dbuf pkt
  | HEREIS data => data
  end.

Section Ldm5.

(** [DBUFMAX] of ldm.h, and the remote LDM. *)
Variable DBUFMAX : Z.
Variable ldm : request -> reply.

(** The [while (unsent > 0)] loop of [my_csbd_5], on the bytes not yet sent;
    [pktnum] is an [u_int].  Returns the status and the packets sent. *)
Fixpoint blkdata_loop (fuel : nat) (pktnum : Z) (data : list Z)
  : option (LdmProxyStatus * list request) :=
  match fuel with
  | O => None
  | S fuel =>
      let unsent := Z.of_nat (length data) in
      if 0 <? unsent then
        let nsend := if DBUFMAX <? unsent then DBUFMAX else unsent in
        let pkt := {| pktnum := pktnum; dbuf := take (Z.to_nat nsend) data |} in
        let r := ldm (BLKDATA pkt) in
        if negb (is_LP_OK (getStatus (re_status r)))
        then Some (getStatus (re_status r), [BLKDATA pkt])
        else if negb (is_OK (code r))
        then Some (LP_LDM_ERROR, [BLKDATA pkt])
        else
          match blkdata_loop fuel ((pktnum + 1) mod 2 ^ 32)
                  (drop (Z.to_nat nsend) data) with
          | Some (status, sent) => Some (status, BLKDATA pkt :: sent)
          | None => None
          end
      else Some (LP_OK, [])
  end.

(** What holds of the [i]th packet sent by the loop started at packet
    number [n]. *)
Definition nth_sent (n : Z) (status : LdmProxyStatus) (sent : list request)
    (i : nat) (r : request) : Prop :=
  (exists pkt, r = BLKDATA pkt /\ pktnum pkt = (n + Z.of_nat i) mod 2 ^ 32)
  /\ ((S i < length sent)%nat ->
      accepted ldm r /\ Z.of_nat (length (data_of r)) = DBUFMAX)
  /\ (status = LP_OK -> accepted ldm r).

(** [my_csbd_5] for a product of the bytes [data] ([info.sz] is their
    number): the status and the messages sent, in order. *)
Definition my_csbd_5 (fuel : nat) (data : list Z)
  : option (LdmProxyStatus * list request) :=
  let soon := COMINGSOON (Z.of_nat (length data)) DBUFMAX in
  let r := ldm soon in
  if negb (is_LP_OK (getStatus (re_status r)))
  then Some (getStatus (re_status r), [soon])
  else if negb (is_OK (code r)) then
    match code r with
    | DONT_SEND => Some (LP_UNWANTED, [soon])
    | _ => Some (LP_LDM_ERROR, [soon])
    end
  else
    match blkdata_loop fuel 0 data with
    | Some (status, sent) => Some (status, soon :: sent)
    | None => None
    end.

(** [my_hereis_5]; the value of [clnt_call] is taken to be the [re_status]
    that [clnt_geterr] gives afterwards. *)
Definition my_hereis_5 (data : list Z) : LdmProxyStatus * list request :=
  let r := ldm (HEREIS data) in
  if negb (match re_status r with RPC_SUCCESS => true | _ => false end)
  then (getStatus (re_status r), [HEREIS data])
  else if negb (is_OK (code r)) then
    match code r with
    | DONT_SEND => (LP_UNWANTED, [HEREIS data])
    | _ => (LP_LDM_ERROR, [HEREIS data])
    end
  else (LP_OK, [HEREIS data]).

(** [my_send_5]. *)
Definition my_send_5 (fuel : nat) (data : list Z)
  : option (LdmProxyStatus * list request) :=
  if DBUFMAX <? Z.of_nat (length data) then my_csbd_5 fuel data
  else Some (my_hereis_5 data).

End Ldm5.

End LdmProxy.

(** ** protocol2/remote.c: the record of the remote peer *)

Module Remote.

(** The two socket options the file reads. *)
Inductive optname := SO_SNDBUF | SO_RCVBUF.

(** A connected socket, as the file uses it: [getsockopt] fails ([None]) or
    stores an [int]; [setsockopt] fails ([false]) or succeeds. *)
Record socket := {
  getsockopt : optname -> option Z;
  setsockopt : optname -> Z -> bool
}.

(** Conversion to [u_int] (32 bits). *)
Definition u_int (z : Z) : Z := z mod 2 ^ 32.

Section Remote.

(** [MAX_RPC_BUF_NEEDED] of ldm.h. *)
Variable MAX_RPC_BUF_NEEDED : Z.

(** [so_buf]. *)
Definition so_buf (sock : socket) (opt : optname) : Z :=
  match getsockopt sock opt with
  | None => 0
  | Some optval =>
      if optval <? 4096 then
        if setsockopt sock opt MAX_RPC_BUF_NEEDED
        then u_int MAX_RPC_BUF_NEEDED
        else 0
      else u_int optval
  end.

(** Which buffer [printname] points to. *)
Inductive printname_t := printname_null | printname_astr | printname_name.

(** The members of [peer_info] that the file sets.  [astr] holds the dotted
    quad of [addr] and is left out; an unset [name] is the empty string; an
    absent product class is [None]. *)
Record peer_info := {
  addr : Z;
  name : string;
  printname : printname_t;
  clssp : option Z;
  sendsz : Z;
  recvsz : Z
}.

(** The structure after [memset(&remote, 0, sizeof(remote))]. *)
Definition zeroed : peer_info :=
  {| addr := 0; name := EmptyString; printname := printname_null;
     clssp := None; sendsz := 0; recvsz := 0 |}.

Definition clamp (sz : Z) : Z :=
  if (MAX_RPC_BUF_NEEDED <? sz) || (sz =? 0) then MAX_RPC_BUF_NEEDED else sz.

(** [setremote], for the address [s_addr] of [paddr]. *)
Definition setremote (remote : peer_info) (s_addr : Z) (sock : socket)
  : peer_info :=
  if negb (s_addr =? 0) && (s_addr =? addr remote) then remote
  else
    {| addr := s_addr;
       name := EmptyString;
       printname := printname_astr;
       clssp := None;
       sendsz := clamp (so_buf sock SO_SNDBUF);
       recvsz := clamp (so_buf sock SO_RCVBUF) |}.

(** The size that is recorded for a socket option. *)
Definition recorded (sock : socket) (opt : optname) : Z :=
  match getsockopt sock opt with
  | Some optval =>
      if (4096 <=? optval) && (optval <=? MAX_RPC_BUF_NEEDED) then optval
      else MAX_RPC_BUF_NEEDED
  | None => MAX_RPC_BUF_NEEDED
  end.

End Remote.

End Remote.

(** ** mcast_lib/C/down7_manager.c: the manager of downstream LDM-7s *)

Module D7mgr.

(** The two statuses the file returns. *)
Inductive Ldm7Status := LDM7_OK | LDM7_SYSTEM.

(** An element of the list [top], without its [next] link. *)
Record Elt := {
  ul7 : string;
  iface : string;
  ft : Z;
  pid : Z
}.

(** [elt_new]: the three allocations ([log_malloc], [sa_clone], [strdup])
    may fail; [None] is the null pointer. *)
Definition elt_new (ft : Z) (ul7 iface : string)
    (log_malloc sa_clone strdup : bool) : option Elt :=
  if log_malloc then
    if sa_clone then
      if strdup
      then Some {| ul7 := ul7; iface := iface; ft := ft; pid := -1 |}
      else None
    else None
  else None.

(** [d7mgr_add]: the status and the new list. *)
Definition d7mgr_add (top : list Elt) (ft : Z) (ul7 iface : string)
    (log_malloc sa_clone strdup : bool) : Ldm7Status * list Elt :=
  match elt_new ft ul7 iface log_malloc sa_clone strdup with
  | None => (LDM7_SYSTEM, top)
  | Some elt => (LDM7_OK, elt :: top)
  end.

(** [elt_start], where [ldmfork] returned [fork]: -1 for an error, 0 in the
    child process, which runs the downstream LDM-7 and exits or aborts (no
    result: [None]), or the child's process identifier. *)
Definition elt_start (elt : Elt) (fork : Z) : option (Ldm7Status * Elt) :=
  if fork =? -1 then Some (LDM7_SYSTEM, elt)
  else if fork =? 0 then None
  else Some (LDM7_OK,
        {| ul7 := ul7 elt; iface := iface elt; ft := ft elt; pid := fork |}).

(** [elt_stop]: the element, and the process that was sent [SIGTERM]. *)
Definition elt_stop (elt : Elt) : Elt * list Z :=
  if 0 <? pid elt
  then ({| ul7 := ul7 elt; iface := iface elt; ft := ft elt; pid := -1 |},
        [pid elt])
  else (elt, []).

(** The inner loop of [d7mgr_startAll]: stop the elements before [elt]. *)
Fixpoint stop_all (elts : list Elt) : list Elt * list Z :=
  match elts with
  | [] => ([], [])
  | elt :: next =>
      let '(elt', k) := elt_stop elt in
      let '(next', ks) := stop_all next in
      (elt' :: next', k ++ ks)
  end.

(** The outer loop of [d7mgr_startAll]: [before] are the elements already
    passed, and [ldmfork n] is what the call number [n] of [ldmfork]
    returns.  Returns the status, the list and the processes sent
    [SIGTERM], in order. *)
Fixpoint start_loop (ldmfork : nat -> Z) (n : nat) (before elts : list Elt)
  : option (Ldm7Status * list Elt * list Z) :=
  match elts with
  | [] => Some (LDM7_OK, before, [])
  | elt :: next =>
      match elt_start elt (ldmfork n) with
      | None => None
      | Some (LDM7_OK, elt') =>
          start_loop ldmfork (S n) (before ++ [elt']) next
      | Some (status, elt') =>
          let '(stopped, killed) := stop_all before in
          Some (status, stopped ++ elt' :: next, killed)
      end
  end.

Definition d7mgr_startAll (top : list Elt) (ldmfork : nat -> Z) :=
  start_loop ldmfork 0 [] top.

(** A history of [d7mgr_add] calls, from the empty list. *)
Record add_call := {
  add_ft : Z;
  add_ul7 : string;
  add_iface : string;
  add_log_malloc : bool;
  add_sa_clone : bool;
  add_strdup : bool
}.

Definition add_all (calls : list add_call) : list Elt :=
  fold_left (fun top c =>
    (d7mgr_add top (add_ft c) (add_ul7 c) (add_iface c)
       (add_log_malloc c) (add_sa_clone c) (add_strdup c)).2) calls [].

End D7mgr.

(** ** misc/Future.c: the future of an asynchronous task *)

Module Future.

Inductive JobState := STATE_INITIALIZED | STATE_RUNNING | STATE_COMPLETED.

Definition MAGIC : Z := 0x2acf8f2d19b89ded.

(** The statuses the file returns: 0 and three error numbers. *)
Inductive status := OK | EINVAL | ECANCELED | EPERM.

(** The members of [struct future] that the file reads (the mutex, the
    condition variable and the thread are left out).  Pointers are
    addresses, 0 being [NULL]; the allocated futures are a map from
    addresses, the heap [h] of the functions below. *)
Record future := {
  job : Z;
  result : Z;
  magic : Z;
  runStatus : Z;
  state : JobState;
  haveResults : bool;
  wasCanceled : bool
}.

(** [future_assertValid]: the assertion holds. *)
Definition valid (h : gmap Z future) (f : Z) : bool :=
  match h !! f with
  | Some fut => negb (f =? 0) && (magic fut =? MAGIC)
  | None => false
  end.

(** [future_cas]: whether the state was the expected one, and the heap. *)
Definition future_cas (h : gmap Z future) (f : Z) (expect newState : JobState)
  : option (bool * gmap Z future) :=
  fut ← h !! f;
  let wasExpected :=
    match state fut, expect with
    | STATE_INITIALIZED, STATE_INITIALIZED
    | STATE_RUNNING, STATE_RUNNING
    | STATE_COMPLETED, STATE_COMPLETED => true
    | _, _ => false
    end in
  Some (wasExpected,
        if wasExpected
        then <[f := {| job := job fut; result := result fut;
                       magic := magic fut; runStatus := runStatus fut;
                       state := newState; haveResults := haveResults fut;
                       wasCanceled := wasCanceled fut |}]> h
        else h).

(** [future_new] at the address [f] that [log_malloc] returns (0: no
    memory); [init_ok] tells whether the mutex and the condition variable
    could be initialised.  [future_init] does not set [state]: it keeps what
    the allocated memory held, [garbage]. *)
Definition future_new (h : gmap Z future) (f : Z) (init_ok : bool) (garbage : JobState)
  : Z * gmap Z future :=
  if f =? 0 then (0, h)
  else if init_ok then
    (f, <[f := {| job := 0; result := 0; magic := MAGIC; runStatus := 0;
                  state := garbage; haveResults := false;
                  wasCanceled := false |}]> h)
  else (0, h).

(** [future_free]: a failed assertion gives no result. *)
Definition future_free (h : gmap Z future) (f : Z) : option (status * gmap Z future) :=
  if f =? 0 then Some (OK, h)
  else if valid h f then
    fut ← h !! f;
    if haveResults fut then Some (OK, delete f h) else Some (EINVAL, h)
  else None.

(** [future_setResult]. *)
Definition future_setResult (h : gmap Z future) (f : Z) (runStatus' result' : Z)
    (wasCanceled' : bool) : option (gmap Z future) :=
  if valid h f then
    fut ← h !! f;
    Some (<[f := {| job := job fut; result := result'; magic := magic fut;
                    runStatus := runStatus'; state := state fut;
                    haveResults := true; wasCanceled := wasCanceled' |}]> h)
  else None.

(** What a call of [future_getResult] comes to: it waits for the results
    (for ever, when no other thread sets them), or returns a status and
    what it stored in [*result] ([None]: nothing). *)
Inductive got :=
  | Waits
  | Returns (s : status) (stored : option Z).

(** [future_getResult]; [result_ptr] tells whether [result] is non-null. *)
Definition future_getResult (h : gmap Z future) (f : Z) (result_ptr : bool)
  : option got :=
  if valid h f then
    fut ← h !! f;
    if negb (haveResults fut) then Some Waits
    else if wasCanceled fut then Some (Returns ECANCELED None)
    else if negb (runStatus fut =? 0) then Some (Returns EPERM None)
    else if result_ptr then Some (Returns OK (Some (result fut)))
    else Some (Returns OK None)
  else None.

(** [future_getAndFree]: the status of [future_free] is dropped. *)
Definition future_getAndFree (h : gmap Z future) (f : Z) (result_ptr : bool)
  : option (got * gmap Z future) :=
  g ← future_getResult h f result_ptr;
  match g with
  | Waits => Some (Waits, h)
  | Returns _ _ =>
      '(_, h') ← future_free h f;
      Some (g, h')
  end.

End Future.

(** ** log/log2log4c.c: the logging module over Log4C *)

Module Log.

(** The string held by a buffer of bytes: the bytes before the first NUL. *)
Fixpoint cstr (buf : list Z) : list Z :=
  match buf with
  | [] => []
  | c :: buf => if c =? 0 then [] else c :: cstr buf
  end.

(** [string_copy]: [memmove(dst, src, size)] and then [dst[size-1] = 0].
    [dst] and [src] are the bytes of the two objects; a [size] of 0, or one
    beyond either object, is an access out of bounds: no result. *)
Definition string_copy (dst src : list Z) (size : nat) : option (list Z) :=
  match size with
  | O => None
  | S n =>
      if (length dst <? size)%nat || (length src <? size)%nat then None
      else Some (<[n := 0]> (take size src ++ drop size dst))
  end.

(** [snprintf(buf, bufsize, ...)] for a format that renders as the text
    [formatted]: the bytes of [buf] afterwards, and the value returned. *)
Definition snprintf (buf : list Z) (bufsize : nat) (formatted : list Z)
  : list Z * Z :=
  (match bufsize with
   | O => buf
   | S m =>
       let k := Nat.min (length formatted) m in
       take k formatted ++ [0] ++ drop (S k) buf
   end,
   Z.of_nat (length formatted)).

(** The bytes of ["..."] with its NUL. *)
Definition dots : list Z := [46; 46; 46; 0].

(** [strcpy(buf + off, "...")]. *)
Definition strcpy_dots (buf : list Z) (off : nat) : list Z :=
  take off buf ++ dots ++ drop (off + 4) buf.

(** [log_layout_format]: the bytes of the event's buffer afterwards, for the
    text [formatted] that the format and its arguments render as.  The
    buffer holds [bufsize] bytes; with fewer than 4 of them the [strcpy]
    starts before the buffer: no result. *)
Definition log_layout_format (buf : list Z) (formatted : list Z)
  : option (list Z) :=
  let bufsize := length buf in
  let '(buf', n) := snprintf buf bufsize formatted in
  if Z.of_nat bufsize <=? n then
    if (bufsize <? 4)%nat then None
    else Some (strcpy_dots buf' (bufsize - 4))
  else Some buf'.

(** The logging levels, in the order of [log_log4c_priorities]. *)
Inductive log_level_t :=
  | LOG_LEVEL_DEBUG | LOG_LEVEL_INFO | LOG_LEVEL_NOTICE | LOG_LEVEL_WARNING
  | LOG_LEVEL_ERROR.

Definition level_num (l : log_level_t) : Z :=
  match l with
  | LOG_LEVEL_DEBUG => 0 | LOG_LEVEL_INFO => 1 | LOG_LEVEL_NOTICE => 2
  | LOG_LEVEL_WARNING => 3 | LOG_LEVEL_ERROR => 4
  end.

Definition level_of (z : Z) : option log_level_t :=
  if z =? 0 then Some LOG_LEVEL_DEBUG
  else if z =? 1 then Some LOG_LEVEL_INFO
  else if z =? 2 then Some LOG_LEVEL_NOTICE
  else if z =? 3 then Some LOG_LEVEL_WARNING
  else if z =? 4 then Some LOG_LEVEL_ERROR
  else None.

(** [set_level]: [ncats] is what [log4c_category_list] returns; a level that
    [logl_vet_level] refuses is [None].  Returns the status and the new
    [log_level]. *)
Definition MAX_CATEGORIES : Z := 512.

Definition set_level (log_level : log_level_t) (level : option log_level_t)
    (ncats : Z) : Z * log_level_t :=
  match level with
  | None => (-1, log_level)
  | Some l =>
      if (ncats <? 0) || (MAX_CATEGORIES <? ncats) then (-1, log_level)
      else (0, l)
  end.

(** [log_roll_level]: the new [log_level]. *)
Definition log_roll_level (log_level : log_level_t) (ncats : Z)
  : log_level_t :=
  let level :=
    match log_level with
    | LOG_LEVEL_DEBUG => Some LOG_LEVEL_ERROR
    | _ => level_of (level_num log_level - 1)
    end in
  (set_level log_level level ncats).2.

(** The appenders [appenders_syslog_local[n]] and [appender_syslog_user];
    [None] is the null pointer. *)
Inductive appender :=
  | appenders_syslog_local (n : nat)
  | appender_syslog_user.

Section Syslog.

(** The facility codes of syslog.h: [LOG_USER], and [LOG_LOCAL n] for
    [LOG_LOCAL0] to [LOG_LOCAL7]. *)
Variable LOG_USER : Z.
Variable LOG_LOCAL : nat -> Z.

(** [log_get_syslog_appender]: the first case label that matches. *)
Definition log_get_syslog_appender (facility : Z) : option appender :=
  if facility =? LOG_LOCAL 0 then Some (appenders_syslog_local 0)
  else if facility =? LOG_LOCAL 1 then Some (appenders_syslog_local 1)
  else if facility =? LOG_LOCAL 2 then Some (appenders_syslog_local 2)
  else if facility =? LOG_LOCAL 3 then Some (appenders_syslog_local 3)
  else if facility =? LOG_LOCAL 4 then Some (appenders_syslog_local 4)
  else if facility =? LOG_LOCAL 5 then Some (appenders_syslog_local 5)
  else if facility =? LOG_LOCAL 6 then Some (appenders_syslog_local 6)
  else if facility =? LOG_LOCAL 7 then Some (appenders_syslog_local 7)
  else if facility =? LOG_USER then Some appender_syslog_user
  else None.

(** An [int] product; an overflow is undefined: no result. *)
Definition int_mul (a b : Z) : option Z :=
  if (- 2 ^ 31 <=? a * b) && (a * b <? 2 ^ 31) then Some (a * b) else None.

(** [log_set_facility]: the status and the new [log_appender_syslog]. *)
Definition log_set_facility (log_appender_syslog : option appender)
    (facility : Z) : option (Z * option appender) :=
  if negb (facility =? LOG_USER) then
    p ← int_mul (LOG_LOCAL 0 - facility) (LOG_LOCAL 7 - facility);
    if 0 <? p then Some (-1, log_appender_syslog)
    else Some (0, log_get_syslog_appender facility)
  else Some (0, log_get_syslog_appender facility).

End Syslog.

End Log.

(** * Properties *)

(** ** The constructor of the receiver *)

Module CtorFacts.
Import Ctor.

Lemma bind_args_length ps : forall args vs,
  bind_args ps args = Some vs ->
  (length args <= length ps)%nat /\ length vs = length ps.
Proof.
  induction ps as [|p ps IH]; intros [|a args] vs H; simpl in H.
  - inversion H. simpl. lia.
  - discriminate.
  - destruct (p_default p); [|discriminate].
    destruct (bind_args ps []) as [vs'|] eqn:E; [|discriminate].
    inversion H; subst. destruct (IH _ _ E). simpl. lia.
  - destruct (pass (p_type p) a); [|discriminate].
    destruct (bind_args ps args) as [vs'|] eqn:E; [|discriminate].
    inversion H; subst. destruct (IH _ _ E). simpl. lia.
Qed.

(** Each bound value comes from the argument at its position, or from the
    parameter's default when the call has no argument there. *)
Lemma bind_args_lookup ps : forall args vs i p,
  bind_args ps args = Some vs ->
  ps !! i = Some p ->
  match args !! i with
  | Some a => pass (p_type p) a = vs !! i
  | None => p_default p = vs !! i /\ p_default p <> None
  end.
Proof.
  induction ps as [|q ps IH]; intros args vs i p H Hp; [destruct i; discriminate|].
  destruct args as [|a args]; simpl in H.
  - destruct (p_default q) as [d|] eqn:Ed; [|discriminate].
    destruct (bind_args ps []) as [vs'|] eqn:E; [|discriminate].
    inversion H; subst vs. destruct i as [|i]; simpl in *.
    + inversion Hp; subst q. split; congruence.
    + apply (IH [] vs' i p E Hp).
  - destruct (pass (p_type q) a) as [v|] eqn:Ev; [|discriminate].
    destruct (bind_args ps args) as [vs'|] eqn:E; [|discriminate].
    inversion H; subst vs. destruct i as [|i]; simpl in *.
    + inversion Hp; subst q. exact Ev.
    + apply (IH args vs' i p E Hp).
Qed.

Lemma pass_string a s : pass TString a = Some (AString s) -> a = AString s.
Proof. destruct a; simpl; congruence. Qed.

Lemma pass_ushort a v :
  pass TUShort a = Some (AUShort v) -> exists n, a = AUShort n /\ v = n mod 2 ^ 16.
Proof. destruct a; simpl; try discriminate. intros H. inversion H. eauto. Qed.

(** C9, counterexample: a receiver is constructed from the sender's address
    and port and the multicast group's address and port alone; the notifier
    is then [NULL] and the interface address ["0.0.0.0"]. *)
Lemma construction_without_notifier_and_ifAddr :
  fmtpRecvv3 [AString "10.0.0.1"; AUShort 1234; AString "224.0.0.1"; AUShort 5173]
  = Some {| tcpAddr := "10.0.0.1"; tcpPort := 1234; mcastAddr := "224.0.0.1";
            mcastPort := 5173; notifier := None; ifAddr := "0.0.0.0" |}.
Proof. vm_compute. reflexivity. Qed.

(** C9, as amended: a constructor call must supply the sender's TCP address
    and port and the multicast group's address and port, in this order (four
    of the six parameters have no default, and a call with fewer than four
    arguments does not match the declaration); the notifier and the
    interface address may be left out, and then default to [NULL] and
    ["0.0.0.0"]. *)
Theorem ctor_required_and_defaulted (args : list arg) (r : Members) :
  fmtpRecvv3 args = Some r ->
  required_params fmtpRecvv3_params = 4%nat
  /\ (4 <= length args <= 6)%nat
  /\ args !! 0%nat = Some (AString (tcpAddr r))
  /\ (exists n, args !! 1%nat = Some (AUShort n) /\ tcpPort r = n mod 2 ^ 16)
  /\ args !! 2%nat = Some (AString (mcastAddr r))
  /\ (exists n, args !! 3%nat = Some (AUShort n) /\ mcastPort r = n mod 2 ^ 16)
  /\ (args !! 4%nat = None -> notifier r = None)
  /\ (args !! 5%nat = None -> ifAddr r = "0.0.0.0"%string).
Proof.
  intros H. split; [reflexivity|].
  unfold fmtpRecvv3 in H.
  destruct (bind_args fmtpRecvv3_params args) as [vs|] eqn:E; [|discriminate].
  destruct (bind_args_length _ _ _ E) as [Hle _].
  change (length fmtpRecvv3_params) with 6%nat in Hle.
  destruct vs as [|[a| |] [|[|b|] [|[c| |] [|[|d|] [|[| |n] [|[i| |] [|? ?]]]]]]];
    try discriminate H.
  inversion H; subst r; clear H; cbn [tcpAddr tcpPort mcastAddr mcastPort notifier ifAddr].
  pose proof (bind_args_lookup _ _ _ 0%nat _ E eq_refl) as H0.
  pose proof (bind_args_lookup _ _ _ 1%nat _ E eq_refl) as H1.
  pose proof (bind_args_lookup _ _ _ 2%nat _ E eq_refl) as H2.
  pose proof (bind_args_lookup _ _ _ 3%nat _ E eq_refl) as H3.
  pose proof (bind_args_lookup _ _ _ 4%nat _ E eq_refl) as H4.
  pose proof (bind_args_lookup _ _ _ 5%nat _ E eq_refl) as H5.
  cbn [p_type p_default lookup list_lookup] in *.
  destruct (args !! 0%nat) as [a0|] eqn:E0; [|destruct H0; congruence].
  destruct (args !! 1%nat) as [a1|] eqn:E1; [|destruct H1; congruence].
  destruct (args !! 2%nat) as [a2|] eqn:E2; [|destruct H2; congruence].
  destruct (args !! 3%nat) as [a3|] eqn:E3; [|destruct H3; congruence].
  apply pass_string in H0. apply pass_string in H2.
  apply pass_ushort in H1. apply pass_ushort in H3.
  destruct H1 as (n1 & -> & ->). destruct H3 as (n3 & -> & ->). subst a0 a2.
  apply lookup_lt_Some in E3.
  split; [lia|].
  split; [reflexivity|].
  split; [eauto|].
  split; [reflexivity|].
  split; [eauto|].
  split.
  - intros E4. rewrite E4 in H4. destruct H4 as [H4 _]. congruence.
  - intros E5. rewrite E5 in H5. destruct H5 as [H5 _]. congruence.
Qed.

Lemma ctor_required_and_defaulted_witness :
  fmtpRecvv3 [AString "10.0.0.1"; AUShort 70000; AString "224.0.0.1"; AUShort 5173]
  = Some {| tcpAddr := "10.0.0.1"; tcpPort := 4464; mcastAddr := "224.0.0.1";
            mcastPort := 5173; notifier := None; ifAddr := "0.0.0.0" |}
  /\ (4 <= 4 <= 6)%nat.
Proof.
  assert (E : fmtpRecvv3 [AString "10.0.0.1"; AUShort 70000; AString "224.0.0.1"; AUShort 5173]
              = Some {| tcpAddr := "10.0.0.1"; tcpPort := 4464; mcastAddr := "224.0.0.1";
                        mcastPort := 5173; notifier := None; ifAddr := "0.0.0.0" |})
    by (vm_compute; reflexivity).
  split; [exact E|].
  exact (proj1 (proj2 (ctor_required_and_defaulted _ _ E))).
Defined.

End CtorFacts.

(** ** The FMTPv3 receiver *)

Module RecvFacts.
Import Recv.

#[local] Set Warnings "-clear-no-such-hyp".

(** *** What a transition does to the Tracker map *)



Lemma trackermap_request_bop p s : trackermap (request_bop p s) = trackermap s.
Proof. reflexivity. Qed.


















(** *** Data before the BOP *)





(** *** The scenarios of the specification (section 8) *)

(** All-clean delivery: one delivery, nothing requested. *)
Example scenario_all_clean :
  let s := run typical_cfg
             [ mcast (bop_of 1 3000);
               mcast (data_of 1 0 1000);
               mcast (data_of 1 1000 1000);
               mcast (data_of 1 2000 1000);
               mcast (eop_of 1) ] init in
  calls s = [BopAccepted 1; ProductDelivered 1]
  /\ msgqueue s = [] /\ tracked s 1 = false.
Proof. vm_compute. repeat split; reflexivity. Qed.

(** BOP loss: the DATA is dropped and the BOP requested; after the
    retransmitted BOP and DATA and the EOP the product is delivered. *)
Example scenario_bop_loss :
  let s1 := run typical_cfg [mcast (data_of 3 0 1000)] init in
  let s2 := run typical_cfg
              [ retx (bop_of 3 1000);
                retx (data_of 3 0 1000);
                mcast (eop_of 3) ] s1 in
  msgqueue s1 = [bop_req 3] /\ bool_decide (3 ∈ misBOPset s1) = true
  /\ tracked s1 3 = false
  /\ calls s2 = [BopAccepted 3; ProductDelivered 3]
  /\ bool_decide (3 ∈ misBOPset s2) = false.
Proof. vm_compute. repeat split; reflexivity. Qed.

(** Product timeout: missed-hook, RETX_END, no delivery. *)
Example scenario_timeout :
  let s := run typical_cfg
             [ mcast (bop_of 4 2000);
               mcast (data_of 4 0 1000);
               TimerExpired 4 ] init in
  calls s = [BopAccepted 4; ProductMissed 4]
  /\ msgqueue s = [retx_end 4] /\ tracked s 4 = false.
Proof. vm_compute. repeat split; reflexivity. Qed.

(** Index gap: after product 5 the sender jumps to 8; the BOPs of 6 and 7
    are requested, in that order. *)
Example scenario_index_gap :
  let s := run typical_cfg
             [ mcast (bop_of 5 1000);
               mcast (data_of 5 0 1000);
               mcast (eop_of 5);
               mcast (bop_of 8 1000) ] init in
  msgqueue s = [bop_req 6; bop_req 7]
  /\ bool_decide (6 ∈ misBOPset s) = true
  /\ bool_decide (7 ∈ misBOPset s) = true
  /\ prodidx_mcast s = Some 8.
Proof. vm_compute. repeat split; reflexivity. Qed.

(** Out-of-order EOP, then the last DATA: the EOP requests the missing
    segment, and the DATA completes the product, which is delivered once. *)
Example scenario_eop_before_last_data :
  let s1 := run typical_cfg
              [ mcast (bop_of 9 2000);
                mcast (data_of 9 0 1000);
                mcast (eop_of 9) ] init in
  let s2 := run typical_cfg [mcast (data_of 9 1000 1000)] s1 in
  msgqueue s1 = [data_req 9 1000 1000] /\ tracked s1 9 = true
  /\ calls s2 = [BopAccepted 9; ProductDelivered 9]
  /\ tracked s2 9 = false.
Proof. vm_compute. repeat split; reflexivity. Qed.

(** Single DATA loss, then recovery: the missing segment is requested, and
    its retransmission completes the product. *)
Example scenario_single_data_loss :
  let s1 := run typical_cfg
              [ mcast (bop_of 2 3000);
                mcast (data_of 2 0 1000);
                mcast (data_of 2 2000 1000);
                mcast (eop_of 2) ] init in
  let s2 := run typical_cfg [retx (data_of 2 1000 1000)] s1 in
  head (msgqueue s1) = Some (data_req 2 1000 1000)
  /\ tracked s1 2 = true
  /\ calls s2 = [BopAccepted 2; ProductDelivered 2]
  /\ tracked s2 2 = false.
Proof. vm_compute. repeat split; reflexivity. Qed.

End RecvFacts.

(** ** rpc/svc.c: the services list and the request loop *)

Module SvcFacts.
Import Svc.

#[local] Set Warnings "-clear-no-such-hyp".

Lemma key_eqb c prog vers :
  (sc_prog c =? prog) && (sc_vers c =? vers) = true
  <-> (sc_prog c, sc_vers c) = (prog, vers).
Proof.
  rewrite andb_true_iff, !Z.eqb_eq.
  split; [intros [-> ->]; reflexivity | intros [= -> ->]; auto].
Qed.

Lemma key_neqb c prog vers :
  (sc_prog c =? prog) && (sc_vers c =? vers) = false
  -> (prog, vers) <> (sc_prog c, sc_vers c).
Proof.
  intros H E. symmetry in E. apply key_eqb in E. congruence.
Qed.

Lemma svc_find_loop_Some p s prog vers b c n :
  svc_find_loop p s prog vers = Some (b, c, n) ->
  exists b', b = p ++ b' /\ s = b' ++ c :: n
    /\ (sc_prog c, sc_vers c) = (prog, vers)
    /\ (prog, vers) ∉ svc_keys b'.
Proof.
  revert p. induction s as [|x s IH]; intros p; cbn [svc_find_loop];
    [discriminate|].
  destruct ((sc_prog x =? prog) && (sc_vers x =? vers)) eqn:Hx.
  - intros [= <- <- <-]. exists []. rewrite app_nil_r.
    repeat split; [by apply key_eqb | cbn; set_solver].
  - intros H. apply IH in H as (b' & -> & -> & Hk & Hn).
    exists (x :: b'). rewrite <- app_assoc. repeat split; auto.
    cbn. rewrite not_elem_of_cons. split; [by apply key_neqb | done].
Qed.

Lemma svc_find_loop_None p s prog vers :
  svc_find_loop p s prog vers = None <-> (prog, vers) ∉ svc_keys s.
Proof.
  revert p. induction s as [|x s IH]; intros p; cbn [svc_find_loop].
  - split; [cbn; set_solver | done].
  - destruct ((sc_prog x =? prog) && (sc_vers x =? vers)) eqn:Hx.
    + split; [done|]. intros H. exfalso. apply H. cbn.
      apply key_eqb in Hx. rewrite Hx. left.
    + rewrite IH. cbn. rewrite not_elem_of_cons. split; [|tauto].
      intros H. split; [by apply key_neqb | done].
Qed.

Lemma svc_find_Some h prog vers b c n :
  svc_find h prog vers = Some (b, c, n) ->
  h = b ++ c :: n /\ (sc_prog c, sc_vers c) = (prog, vers)
  /\ (prog, vers) ∉ svc_keys b.
Proof.
  intros H. apply svc_find_loop_Some in H as (b' & -> & -> & ? & ?). auto.
Qed.

Lemma svc_find_None h prog vers :
  svc_find h prog vers = None <-> (prog, vers) ∉ svc_keys h.
Proof. apply svc_find_loop_None. Qed.

Lemma svc_keys_app a b : svc_keys (a ++ b) = svc_keys a ++ svc_keys b.
Proof. apply map_app. Qed.


(** The matching loop and [svc_find] agree on the node they stop at. *)
Lemma match_loop_find s prog vers : forall p prog_found low high,
  match svc_find_loop p s prog vers with
  | Some (_, c, _) =>
      match_loop s prog vers prog_found low high = dispatched (sc_dispatch c)
  | None =>
      forall d, match_loop s prog vers prog_found low high <> dispatched d
  end.
Proof.
  induction s as [|x s IH]; intros p pf lo hi; cbn [svc_find_loop match_loop].
  - destruct pf; discriminate.
  - destruct (sc_prog x =? prog); cbn [andb]; [|apply IH].
    destruct (sc_vers x =? vers); [reflexivity | apply IH].
Qed.

(** The versions the loop has seen bound the range it reports. *)
Lemma match_loop_progvers s prog vers : forall prog_found low high lo hi,
  match_loop s prog vers prog_found low high = svcerr_progvers lo hi ->
  (vers ∉ versions_of s prog)
  /\ lo = fold_left Z.min (versions_of s prog) low
  /\ hi = fold_left Z.max (versions_of s prog) high
  /\ (prog_found = true \/ versions_of s prog <> []).
Proof.
  unfold versions_of.
  induction s as [|x s IH]; intros pf low high lo hi;
    cbn [match_loop List.filter].
  - destruct pf; [|discriminate]. intros [= <- <-]. cbn.
    repeat split; auto. set_solver.
  - destruct (sc_prog x =? prog); [|apply IH].
    destruct (sc_vers x =? vers) eqn:Hv; [discriminate|].
    intros H. apply IH in H as (Hn & -> & -> & _).
    apply Z.eqb_neq in Hv. cbn [map fold_left].
    repeat split; [| | |by right].
    + rewrite not_elem_of_cons. auto.
    + f_equal. destruct (Z.ltb_spec (sc_vers x) low); lia.
    + f_equal. destruct (Z.ltb_spec high (sc_vers x)); lia.
Qed.

Lemma match_loop_noprog s prog vers : forall prog_found low high,
  match_loop s prog vers prog_found low high = svcerr_noprog
  <-> prog_found = false /\ prog ∉ map sc_prog s.
Proof.
  induction s as [|x s IH]; intros pf low high; cbn [match_loop map].
  - destruct pf; split; try done; [intros [? _]; done | split; [done|set_solver]].
  - rewrite not_elem_of_cons.
    destruct (Z.eqb_spec (sc_prog x) prog) as [E|E].
    + destruct (sc_vers x =? vers).
      * split; [done | intros (_ & ? & _); congruence].
      * rewrite IH. split; [intros [? _]; done | intros (_ & ? & _); congruence].
    + rewrite IH. split; [intros [? ?]; auto | tauto].
Qed.

Lemma fold_min_le l : forall a, fold_left Z.min l a <= a.
Proof. induction l as [|x l IH]; intros a; cbn; [lia|]. specialize (IH (Z.min a x)). lia. Qed.

Lemma fold_min_lower l : forall a v, v ∈ l -> fold_left Z.min l a <= v.
Proof.
  induction l as [|x l IH]; intros a v Hv; cbn; [set_solver|].
  apply elem_of_cons in Hv as [->|Hv]; [|by apply IH].
  pose proof (fold_min_le l (Z.min a x)). lia.
Qed.

Lemma fold_min_in l : forall a,
  fold_left Z.min l a = a \/ fold_left Z.min l a ∈ l.
Proof.
  induction l as [|x l IH]; intros a; cbn; [by left|].
  destruct (IH (Z.min a x)) as [E|E]; [|right; by right].
  rewrite E. destruct (Z.min_spec a x) as [[_ ->]|[_ ->]]; [by left | right; left].
Qed.

Lemma fold_max_ge l : forall a, a <= fold_left Z.max l a.
Proof. induction l as [|x l IH]; intros a; cbn; [lia|]. specialize (IH (Z.max a x)). lia. Qed.

Lemma fold_max_upper l : forall a v, v ∈ l -> v <= fold_left Z.max l a.
Proof.
  induction l as [|x l IH]; intros a v Hv; cbn; [set_solver|].
  apply elem_of_cons in Hv as [->|Hv]; [|by apply IH].
  pose proof (fold_max_ge l (Z.max a x)). lia.
Qed.

Lemma fold_max_in l : forall a,
  fold_left Z.max l a = a \/ fold_left Z.max l a ∈ l.
Proof.
  induction l as [|x l IH]; intros a; cbn; [by left|].
  destruct (IH (Z.max a x)) as [E|E]; [|right; by right].
  rewrite E. destruct (Z.max_spec a x) as [[_ ->]|[_ ->]]; [right; left | by left].
Qed.


Lemma svc_register_keys h prog vers d protocol ma ps :
  NoDup (svc_keys h) ->
  NoDup (svc_keys (svc_register h prog vers d protocol ma ps).2).
Proof.
  intros Hh. unfold svc_register.
  destruct (svc_find h prog vers) as [[[b c] n]|] eqn:Hf.
  - destruct (sc_dispatch c =? d); exact Hh.
  - destruct ma; [|exact Hh]. cbn. apply NoDup_cons_2; [|exact Hh].
    by apply svc_find_None.
Qed.

Lemma svc_unregister_keys h prog vers :
  NoDup (svc_keys h) -> NoDup (svc_keys (svc_unregister h prog vers)).
Proof.
  intros Hh. unfold svc_unregister.
  destruct (svc_find h prog vers) as [[[b c] n]|] eqn:Hf; [|exact Hh].
  apply svc_find_Some in Hf as (-> & _ & _).
  rewrite svc_keys_app in *. cbn in Hh.
  apply NoDup_app in Hh as (Hb & Hbn & Hn).
  apply NoDup_cons in Hn as [_ Hn].
  apply NoDup_app. repeat split; auto.
  intros k Hk Hk'. apply (Hbn k Hk). by right.
Qed.

(** X1: whatever calls of [svc_register] and [svc_unregister] are made, no
    two nodes of the services list carry the same program and version
    numbers. *)
Theorem svc_list_has_one_node_per_program_version calls :
  NoDup (svc_keys (svc_run calls)).
Proof.
  unfold svc_run.
  assert (forall h, NoDup (svc_keys h) ->
            NoDup (svc_keys (fold_left svc_step calls h))) as G.
  { induction calls as [|c calls IH]; intros h Hh; cbn [fold_left]; [done|].
    apply IH. destruct c; cbn [svc_step].
    - by apply svc_register_keys.
    - by apply svc_unregister_keys. }
  apply G. cbn. apply NoDup_nil_2.
Qed.

(** X2: the request loop calls a dispatch routine exactly when [svc_find]
    returns a node for the call's program and version, and it is that node's
    routine. *)
Theorem serve_dispatches_the_node_svc_find_returns h prog vers d :
  serve h true prog vers = dispatched d
  <-> exists b c n, svc_find h prog vers = Some (b, c, n) /\ sc_dispatch c = d.
Proof.
  unfold serve, svc_find.
  pose proof (match_loop_find h prog vers [] false ULONG_MAX 0) as H.
  destruct (svc_find_loop [] h prog vers) as [[[b c] n]|].
  - rewrite H. split.
    + intros [= <-]. by exists b, c, n.
    + intros (? & ? & ? & [= _ <- _] & <-). reflexivity.
  - split; [intros E; by apply H in E | intros (? & ? & ? & ? & _); done].
Qed.

(** X3: when [svc_register] returns TRUE, a call for the program and version
    is dispatched to the routine that was registered. *)
Theorem registered_service_is_dispatched h prog vers d protocol ma ps :
  (svc_register h prog vers d protocol ma ps).1 = true ->
  serve (svc_register h prog vers d protocol ma ps).2 true prog vers
  = dispatched d.
Proof.
  unfold svc_register, serve. intros H.
  destruct (svc_find h prog vers) as [[[b c] n]|] eqn:Hf.
  - destruct (Z.eqb_spec (sc_dispatch c) d) as [<-|]; [|discriminate].
    cbn [snd].
    pose proof (match_loop_find h prog vers [] false ULONG_MAX 0) as G.
    unfold svc_find in Hf. by rewrite Hf in G.
  - destruct ma; [|discriminate]. cbn. by rewrite !Z.eqb_refl.
Qed.

Lemma registered_service_is_dispatched_witness :
  serve (svc_register [] 300029 6 4096 0 true false).2 true 300029 6
  = dispatched 4096.
Proof. apply registered_service_is_dispatched. reflexivity. Defined.

(** X4: [svc_register] never replaces the routine of a program version that
    is registered: the list stays as it is, calls still go to the routine
    registered first, and the call returns FALSE when the routines differ. *)
Theorem svc_register_keeps_the_first_routine
    h prog vers d protocol ma ps b c n :
  svc_find h prog vers = Some (b, c, n) ->
  (svc_register h prog vers d protocol ma ps).2 = h
  /\ serve h true prog vers = dispatched (sc_dispatch c)
  /\ (d <> sc_dispatch c ->
      (svc_register h prog vers d protocol ma ps).1 = false).
Proof.
  intros Hf. unfold svc_register. rewrite Hf. repeat split.
  - by destruct (sc_dispatch c =? d).
  - pose proof (match_loop_find h prog vers [] false ULONG_MAX 0) as G.
    unfold svc_find in Hf. by rewrite Hf in G.
  - intros Hd. destruct (Z.eqb_spec (sc_dispatch c) d); [congruence|done].
Qed.


Lemma svc_register_keeps_the_first_routine_witness :
  (svc_register [Callout 300029 6 4096; Callout 300029 5 8192]
     300029 5 12288 17 true true).2
  = [Callout 300029 6 4096; Callout 300029 5 8192]
  /\ serve [Callout 300029 6 4096; Callout 300029 5 8192] true 300029 5
     = dispatched 8192
  /\ (svc_register [Callout 300029 6 4096; Callout 300029 5 8192]
        300029 5 12288 17 true true).1 = false.
Proof.
  pose proof (svc_register_keeps_the_first_routine
    [Callout 300029 6 4096; Callout 300029 5 8192] 300029 5 12288 17 true true
    [Callout 300029 6 4096] (Callout 300029 5 8192) [] eq_refl) as (H1 & H2 & H3).
  split; [exact H1 | split; [exact H2 | apply H3; discriminate]].
Defined.

(** X5: a FALSE from [svc_register] does not undo the registration: when the
    node is new and allocated but [pmap_set] fails, the call returns FALSE
    and the node stays at the head of the list, so calls for the program and
    version are dispatched to the routine all the same. *)
Theorem svc_register_pmap_failure_leaves_the_node
    h prog vers d protocol :
  svc_find h prog vers = None -> protocol <> 0 ->
  svc_register h prog vers d protocol true false
  = (false, Callout prog vers d :: h)
  /\ serve (svc_register h prog vers d protocol true false).2 true prog vers
     = dispatched d.
Proof.
  intros Hf Hp. unfold svc_register, pmap_it. rewrite Hf.
  destruct (Z.eqb_spec protocol 0); [done|].
  split; [reflexivity|]. cbn. by rewrite !Z.eqb_refl.
Qed.

Lemma svc_register_pmap_failure_leaves_the_node_witness :
  svc_register [] 300029 6 4096 17 true false
  = (false, [Callout 300029 6 4096])
  /\ serve (svc_register [] 300029 6 4096 17 true false).2 true 300029 6
     = dispatched 4096.
Proof.
  apply (svc_register_pmap_failure_leaves_the_node [] 300029 6 4096 17);
    [reflexivity | discriminate].
Defined.

Lemma elem_of_versions_of h prog v :
  v ∈ versions_of h prog
  <-> exists c, c ∈ h /\ sc_prog c = prog /\ sc_vers c = v.
Proof.
  unfold versions_of. rewrite list_elem_of_fmap. split.
  - intros (c & -> & Hc). apply list_elem_of_In, filter_In in Hc as [Hc Hp].
    exists c. rewrite list_elem_of_In. by apply Z.eqb_eq in Hp.
  - intros (c & Hc & Hp & <-). exists c. split; [done|].
    apply list_elem_of_In, filter_In. rewrite <- list_elem_of_In.
    by apply Z.eqb_eq in Hp.
Qed.

(** X6: when the request loop answers with a version mismatch, the called
    version is not registered for the program, the two versions it reports
    are registered for the program, and every version registered for the
    program lies between them. *)
Theorem svcerr_progvers_reports_the_registered_range h prog vers lo hi :
  Forall (fun c => 0 <= sc_vers c <= ULONG_MAX) h ->
  serve h true prog vers = svcerr_progvers lo hi ->
  (vers ∉ versions_of h prog)
  /\ lo ∈ versions_of h prog /\ hi ∈ versions_of h prog
  /\ forall v, v ∈ versions_of h prog -> lo <= v <= hi.
Proof.
  intros Hr H. unfold serve in H.
  apply match_loop_progvers in H as (Hn & -> & -> & [?|Hne]); [done|].
  assert (forall v, v ∈ versions_of h prog -> 0 <= v <= ULONG_MAX) as Hb.
  { intros v (c & Hc & _ & <-)%elem_of_versions_of.
    rewrite Forall_forall in Hr. by apply Hr. }
  destruct (versions_of h prog) as [|v0 l] eqn:El; [done|]. clear Hne.
  assert (v0 ∈ v0 :: l) as H0 by left.
  repeat split.
  - exact Hn.
  - destruct (fold_min_in (v0 :: l) ULONG_MAX) as [E|E]; [|exact E].
    pose proof (fold_min_lower (v0 :: l) ULONG_MAX v0 H0).
    pose proof (Hb v0 H0). replace (fold_left Z.min (v0 :: l) ULONG_MAX)
      with v0 by lia. exact H0.
  - destruct (fold_max_in (v0 :: l) 0) as [E|E]; [|exact E].
    pose proof (fold_max_upper (v0 :: l) 0 v0 H0).
    pose proof (Hb v0 H0). replace (fold_left Z.max (v0 :: l) 0)
      with v0 by lia. exact H0.
  - by apply fold_min_lower.
  - by apply fold_max_upper.
Qed.

Lemma svcerr_progvers_reports_the_registered_range_witness :
  (4 ∉ versions_of
         [Callout 300029 6 4096; Callout 7 1 1; Callout 300029 5 8192] 300029)
  /\ 5 ∈ versions_of
           [Callout 300029 6 4096; Callout 7 1 1; Callout 300029 5 8192] 300029
  /\ 6 ∈ versions_of
           [Callout 300029 6 4096; Callout 7 1 1; Callout 300029 5 8192] 300029
  /\ forall v,
       v ∈ versions_of
             [Callout 300029 6 4096; Callout 7 1 1; Callout 300029 5 8192]
             300029 -> 5 <= v <= 6.
Proof.
  apply (svcerr_progvers_reports_the_registered_range
    [Callout 300029 6 4096; Callout 7 1 1; Callout 300029 5 8192]
    300029 4 5 6); [|reflexivity].
  repeat apply Forall_cons_2; try apply Forall_nil_2; cbn; unfold ULONG_MAX; lia.
Defined.

(** X7: the request loop answers that the program is unavailable exactly
    when no node of the list carries the program number, whatever versions
    are registered. *)
Theorem svcerr_noprog_iff_program_not_registered h prog vers :
  serve h true prog vers = svcerr_noprog <-> prog ∉ map sc_prog h.
Proof.
  unfold serve. rewrite match_loop_noprog. tauto.
Qed.

Lemma match_loop_dispatched_indep s prog vers d pf lo hi pf' lo' hi' :
  match_loop s prog vers pf lo hi = dispatched d ->
  match_loop s prog vers pf' lo' hi' = dispatched d.
Proof.
  pose proof (match_loop_find s prog vers [] pf lo hi) as H.
  pose proof (match_loop_find s prog vers [] pf' lo' hi') as H'.
  destruct (svc_find_loop [] s prog vers) as [[[? c] ?]|].
  - congruence.
  - intros E. by apply H in E.
Qed.

Lemma match_loop_skip b c n prog vers d :
  (prog, vers) <> (sc_prog c, sc_vers c) ->
  forall pf lo hi pf' lo' hi',
  match_loop (b ++ c :: n) prog vers pf lo hi = dispatched d
  <-> match_loop (b ++ n) prog vers pf' lo' hi' = dispatched d.
Proof.
  intros Hc. induction b as [|x b IH]; intros pf lo hi pf' lo' hi';
    cbn [app match_loop].
  - destruct (Z.eqb_spec (sc_prog c) prog) as [Ep|Ep].
    + destruct (Z.eqb_spec (sc_vers c) vers) as [Ev|Ev]; [congruence|].
      split; apply match_loop_dispatched_indep.
    + split; apply match_loop_dispatched_indep.
  - destruct (sc_prog x =? prog); [|apply IH].
    destruct (sc_vers x =? vers); [done | apply IH].
Qed.

(** X8: in a list with one node per program and version, [svc_unregister]
    leaves no node for the program and version, and every other program
    version is dispatched to the routine it was dispatched to before. *)
Theorem svc_unregister_removes_only_its_node h prog vers :
  NoDup (svc_keys h) ->
  svc_find (svc_unregister h prog vers) prog vers = None
  /\ forall prog' vers' d, (prog', vers') <> (prog, vers) ->
       serve (svc_unregister h prog vers) true prog' vers' = dispatched d
       <-> serve h true prog' vers' = dispatched d.
Proof.
  intros Hh. unfold svc_unregister.
  destruct (svc_find h prog vers) as [[[b c] n]|] eqn:Hf; [|done].
  apply svc_find_Some in Hf as (-> & Hk & Hb). split.
  - apply svc_find_None. rewrite svc_keys_app in *. cbn in Hh.
    rewrite Hk in Hh. apply NoDup_app in Hh as (_ & _ & Hn).
    apply NoDup_cons in Hn as [Hn _]. rewrite not_elem_of_app. done.
  - intros prog' vers' d Hne. unfold serve. symmetry.
    apply match_loop_skip. congruence.
Qed.

Lemma svc_unregister_removes_only_its_node_witness :
  svc_find (svc_unregister [Callout 300029 6 4096; Callout 300029 5 8192]
              300029 6) 300029 6 = None
  /\ (serve (svc_unregister [Callout 300029 6 4096; Callout 300029 5 8192]
               300029 6) true 300029 5 = dispatched 8192
      <-> serve [Callout 300029 6 4096; Callout 300029 5 8192] true 300029 5
          = dispatched 8192).
Proof.
  destruct (svc_unregister_removes_only_its_node
    [Callout 300029 6 4096; Callout 300029 5 8192] 300029 6) as [H1 H2].
  { repeat apply NoDup_cons_2; try apply NoDup_nil_2; cbn; set_solver. }
  split; [exact H1 | apply H2; discriminate].
Defined.


Lemma registered_mono calls c xprt :
  registered calls xprt -> registered (calls ++ [c]) xprt.
Proof. intros [ma H]. exists ma. apply elem_of_app. by left. Qed.

Lemma xports_inv_mono dts calls c x :
  xports_inv dts calls x -> xports_inv dts (calls ++ [c]) x.
Proof.
  intros [I1 I2]. constructor; [done|].
  intros sock xprt H. destruct (I2 sock xprt H) as (? & ? & ?).
  eauto using registered_mono.
Qed.

Lemma xprt_register_inv dts calls ma x xprt x' :
  xports_inv dts calls x ->
  xprt_register dts ma x xprt = Some x' ->
  xports_inv dts (calls ++ [XprtRegister ma xprt]) x'.
Proof.
  intros I. apply (xports_inv_mono _ _ (XprtRegister ma xprt)) in I.
  destruct I as [I1 I2]. unfold xprt_register.
  destruct (Z.ltb_spec (xp_sock xprt) dts) as [Hlt|Hge].
  - destruct (xports x) as [t|] eqn:Et.
    + destruct (Z.ltb_spec (xp_sock xprt) 0); [discriminate|]. intros [= <-].
      constructor; unfold xprt_at; cbn.
      * intros sock. rewrite elem_of_union, elem_of_singleton, I1.
        unfold xprt_at. rewrite Et.
        destruct (decide (sock = xp_sock xprt)) as [->|Hne].
        -- rewrite lookup_insert_eq. cbn. split; [eauto | by left].
        -- rewrite lookup_insert_ne by done. split; [by intros [?|?] | by right].
      * intros sock y.
        destruct (decide (sock = xp_sock xprt)) as [->|Hne].
        -- rewrite lookup_insert_eq. cbn. intros [= <-].
           repeat split; [lia..|]. exists ma. apply elem_of_app. right.
           by apply list_elem_of_singleton.
        -- rewrite lookup_insert_ne by done. intros Hy. apply I2.
           unfold xprt_at. by rewrite Et.
    + destruct ma; [|discriminate].
      destruct (Z.ltb_spec (xp_sock xprt) 0); [discriminate|]. intros [= <-].
      assert (svc_fdset x = ∅) as E0.
      { apply set_eq. intros s. rewrite I1. unfold xprt_at. rewrite Et.
        split; [by intros [? ?] | set_solver]. }
      constructor; unfold xprt_at; cbn.
      * intros sock. rewrite E0.
        destruct (decide (sock = xp_sock xprt)) as [->|Hne].
        -- rewrite lookup_insert_eq. cbn. split; [eauto | set_solver].
        -- rewrite lookup_insert_ne, lookup_empty by done. cbn.
           split; [set_solver | by intros [? ?]].
      * intros sock y.
        destruct (decide (sock = xp_sock xprt)) as [->|Hne].
        -- rewrite lookup_insert_eq. cbn. intros [= <-].
           repeat split; [lia..|]. exists true. apply elem_of_app. right.
           by apply list_elem_of_singleton.
        -- by rewrite lookup_insert_ne, lookup_empty by done.
  - intros [= <-]. constructor; unfold xprt_at; cbn.
    + intros sock. rewrite I1. unfold xprt_at.
      destruct (xports x) as [t|]; [done|]. destruct ma; [|done].
      rewrite lookup_empty. done.
    + intros sock y Hy. apply I2. unfold xprt_at.
      destruct (xports x) as [t|]; [done|]. destruct ma; [|done].
      by rewrite lookup_empty in Hy.
Qed.

Lemma xprt_unregister_inv dts calls x xprt x' :
  xports_inv dts calls x ->
  xprt_unregister dts x xprt = Some x' ->
  xports_inv dts (calls ++ [XprtUnregister xprt]) x'.
Proof.
  intros I. apply (xports_inv_mono _ _ (XprtUnregister xprt)) in I.
  unfold xprt_unregister.
  destruct (Z.ltb_spec (xp_sock xprt) dts) as [Hlt|Hge];
    [|by intros [= <-]].
  destruct (xports x) as [t|] eqn:Et; [|discriminate].
  destruct (Z.ltb_spec (xp_sock xprt) 0); [discriminate|].
  destruct (t !! xp_sock xprt) as [cell|] eqn:Ec; [|discriminate].
  destruct (bool_decide _); intros [= <-]; [|done].
  destruct I as [I1 I2]. constructor; unfold xprt_at; cbn.
  - intros sock. rewrite elem_of_difference, elem_of_singleton, I1.
    unfold xprt_at. rewrite Et.
    destruct (decide (sock = xp_sock xprt)) as [->|Hne].
    + rewrite lookup_insert_eq. cbn. split; [by intros [_ ?] | by intros [? ?]].
    + rewrite lookup_insert_ne by done. split; [by intros [? _] | done].
  - intros sock y.
    destruct (decide (sock = xp_sock xprt)) as [->|Hne].
    + by rewrite lookup_insert_eq.
    + rewrite lookup_insert_ne by done. intros Hy. apply I2.
      unfold xprt_at. by rewrite Et.
Qed.

Lemma xprt_run_snoc dts calls c :
  xprt_run dts (calls ++ [c]) = xprt_step dts (xprt_run dts calls) c.
Proof. unfold xprt_run. by rewrite fold_left_app. Qed.

Lemma xprt_run_inv dts calls : forall x,
  xprt_run dts calls = Some x -> xports_inv dts calls x.
Proof.
  induction calls as [|c calls IH] using rev_ind; intros x.
  - intros [= <-]. constructor; unfold xprt_at; cbn.
    + intros sock. split; [set_solver | by intros [? ?]].
    + done.
  - rewrite xprt_run_snoc.
    destruct (xprt_run dts calls) as [x0|]; [|done].
    specialize (IH x0 eq_refl). cbn [xprt_step].
    destruct c as [ma xprt|xprt].
    + by apply xprt_register_inv.
    + by apply xprt_unregister_inv.
Qed.

(** X9: the program starts with no table.  After any calls of
    [xprt_register] and [xprt_unregister] that have a defined result (none
    stores or reads through a null [xports], at a negative index, or reads a
    cell of the table that was never written), a socket is in [svc_fdset]
    exactly when [xports] holds a transport for it; that transport has this
    socket, inside the table, and was registered by one of the calls. *)
Theorem svc_fdset_is_the_sockets_of_xports dtablesize calls x :
  xprt_run dtablesize calls = Some x ->
  (forall sock, sock ∈ svc_fdset x <-> is_Some (xprt_at x sock))
  /\ forall sock xprt, xprt_at x sock = Some xprt ->
       xp_sock xprt = sock /\ 0 <= sock < dtablesize
       /\ registered calls xprt.
Proof.
  intros H. by destruct (xprt_run_inv dtablesize calls x H).
Qed.

Lemma svc_fdset_is_the_sockets_of_xports_witness :
  xprt_run 32
    [XprtRegister true (Xprt 100 4); XprtRegister true (Xprt 200 7);
     XprtUnregister (Xprt 300 4); XprtUnregister (Xprt 200 7)]
  = Some {| xports := Some {[ 4 := Some (Xprt 100 4); 7 := None ]};
            svc_fdset := {[ 4 ]} |}
  /\ (4 ∈ ({[ 4 ]} : gset Z) <-> is_Some (Some (Xprt 100 4))).
Proof.
  assert (xprt_run 32
    [XprtRegister true (Xprt 100 4); XprtRegister true (Xprt 200 7);
     XprtUnregister (Xprt 300 4); XprtUnregister (Xprt 200 7)]
  = Some {| xports := Some {[ 4 := Some (Xprt 100 4); 7 := None ]};
            svc_fdset := {[ 4 ]} |}) as E by (vm_compute; reflexivity).
  split; [exact E|].
  exact (proj1 (svc_fdset_is_the_sockets_of_xports 32 _ _ E) 4).
Defined.

(** [xprt_unregister] before any [xprt_register] reads through the null
    [xports]; so does it after a registration whose allocation failed for a
    socket outside the table. *)
Example xprt_unregister_without_a_table :
  xprt_run 32 [XprtUnregister (Xprt 100 4)] = None
  /\ xprt_run 32 [XprtRegister false (Xprt 100 40); XprtUnregister (Xprt 200 7)]
     = None.
Proof. split; reflexivity. Qed.

End SvcFacts.

(** ** protocol2/LdmProxy.c: connecting, and sending a product with LDM-5 *)

Module LdmProxyFacts.
Import LdmProxy.

#[local] Set Warnings "-clear-no-such-hyp".

Lemma getStatus_OK s : is_LP_OK (getStatus s) = true <-> s = RPC_SUCCESS.
Proof. destruct s; cbn; split; congruence. Qed.

Lemma is_OK_true c : is_OK c = true <-> c = OK.
Proof. destruct c; cbn; split; congruence. Qed.

Section Ldm5Facts.

Variable DBUFMAX : Z.
Variable ldm : request -> reply.
Hypothesis DBUFMAX_pos : 0 < DBUFMAX.

(** One turn of the loop: the bytes of the packet and the bytes left. *)
Lemma nsend_split (data : list Z) :
  data <> [] ->
  let nsend := if DBUFMAX <? Z.of_nat (length data) then DBUFMAX
               else Z.of_nat (length data) in
  (0 < Z.of_nat (length (take (Z.to_nat nsend) data)) <= DBUFMAX)
  /\ (length (drop (Z.to_nat nsend) data) < length data)%nat
  /\ (drop (Z.to_nat nsend) data <> [] ->
      Z.of_nat (length (take (Z.to_nat nsend) data)) = DBUFMAX).
Proof.
  intros Hne. assert (0 < length data)%nat by (destruct data; [done|cbn; lia]).
  cbv zeta. rewrite length_take, length_drop.
  destruct (Z.ltb_spec DBUFMAX (Z.of_nat (length data))).
  - repeat split; try lia.
  - repeat split; try lia. intros Hd. exfalso. apply Hd.
    apply drop_ge. lia.
Qed.

Lemma blkdata_loop_one n data k status (pkt := {| pktnum := n; dbuf := take k data |}) :
  0 <= n < 2 ^ 32 ->
  0 < Z.of_nat (length (take k data)) <= DBUFMAX ->
  (status = LP_OK -> False) ->
  (exists rest, data = concat (data_of <$> [BLKDATA pkt]) ++ rest
     /\ (status = LP_OK -> rest = []))
  /\ Forall (fun r => 0 < Z.of_nat (length (data_of r)) <= DBUFMAX)
       [BLKDATA pkt]
  /\ (forall i r, [BLKDATA pkt] !! i = Some r ->
        nth_sent DBUFMAX ldm n status [BLKDATA pkt] i r).
Proof.
  intros Hn Hk Hs. split; [|split].
  - exists (drop k data). cbn. rewrite app_nil_r, take_drop. split; [done|].
    intros E. by apply Hs in E.
  - apply Forall_cons_2; [exact Hk | apply Forall_nil_2].
  - intros [|i] r Hr; [|done]. injection Hr as <-. split; [|split].
    + exists pkt. split; [done|]. cbn. rewrite Z.add_0_r, Z.mod_small; lia.
    + cbn. lia.
    + intros E. by apply Hs in E.
Qed.

Lemma blkdata_loop_sent fuel : forall n data status sent,
  0 <= n < 2 ^ 32 ->
  blkdata_loop DBUFMAX ldm fuel n data = Some (status, sent) ->
  (exists rest, data = concat (data_of <$> sent) ++ rest
     /\ (status = LP_OK -> rest = []))
  /\ Forall (fun r => 0 < Z.of_nat (length (data_of r)) <= DBUFMAX) sent
  /\ (forall i r, sent !! i = Some r -> nth_sent DBUFMAX ldm n status sent i r).
Proof.
  induction fuel as [|fuel IH]; intros n data status sent Hn;
    cbn [blkdata_loop]; [discriminate|].
  destruct (Z.ltb_spec 0 (Z.of_nat (length data))) as [Hlen|Hlen].
  2:{ intros [= <- <-].
      assert (data = []) as -> by (destruct data; [done|cbn in Hlen; lia]).
      split; [by exists [] | split; [apply Forall_nil_2 | intros; done]]. }
  assert (data <> []) as Hne by (intros ->; cbn in Hlen; lia).
  pose proof (nsend_split data Hne) as (Hk & Hd & Hfull). cbv zeta in *.
  set (k := Z.to_nat (if DBUFMAX <? Z.of_nat (length data) then DBUFMAX
                      else Z.of_nat (length data))) in *.
  set (pkt := {| pktnum := n; dbuf := take k data |}).
  destruct (is_LP_OK (getStatus (re_status (ldm (BLKDATA pkt))))) eqn:Es;
    cbn [negb].
  2:{ intros [= <- <-]. apply blkdata_loop_one; [done..|].
      intros E. rewrite E in Es. done. }
  destruct (is_OK (code (ldm (BLKDATA pkt)))) eqn:Ec; cbn [negb].
  2:{ intros [= <- <-]. apply blkdata_loop_one; done. }
  apply getStatus_OK in Es. apply is_OK_true in Ec.
  destruct (blkdata_loop DBUFMAX ldm fuel ((n + 1) mod 2 ^ 32) (drop k data))
    as [[st' sent']|] eqn:El; [|discriminate].
  intros [= <- <-].
  apply IH in El as ((rest & Hrest & Hok) & Hall & Hi);
    [|apply Z.mod_pos_bound; lia].
  split; [|split].
  - exists rest. split; [|exact Hok]. cbn.
    rewrite <- app_assoc, <- Hrest. symmetry. apply take_drop.
  - apply Forall_cons_2; [exact Hk | exact Hall].
  - intros i r Hr. destruct i as [|i]; cbn in Hr.
    + injection Hr as <-. split; [|split].
      * exists pkt. split; [done|]. cbn. rewrite Z.add_0_r, Z.mod_small; lia.
      * cbn. intros Hlt. split; [done|]. apply Hfull. intros E.
        rewrite E in Hrest.
        destruct sent' as [|r0 sent']; [cbn in Hlt; lia|].
        rewrite Forall_cons in Hall. destruct Hall as [Hr0 _].
        symmetry in Hrest. apply app_eq_nil in Hrest as [Hc _].
        cbn in Hc. apply app_eq_nil in Hc as [Hc _]. rewrite Hc in Hr0.
        cbn in Hr0. lia.
      * done.
    + destruct (Hi i r Hr) as ((p & -> & Hp) & Hmid & Hlast).
      split; [|split].
      * exists p. split; [done|]. rewrite Hp, Zplus_mod_idemp_l.
        f_equal. lia.
      * cbn [length]. intros Hlt. apply Hmid. lia.
      * exact Hlast.
Qed.

Lemma blkdata_loop_returns fuel : forall n data,
  (length data < fuel)%nat ->
  exists r, blkdata_loop DBUFMAX ldm fuel n data = Some r.
Proof.
  induction fuel as [|fuel IH]; intros n data Hf; [lia|].
  cbn [blkdata_loop].
  destruct (Z.ltb_spec 0 (Z.of_nat (length data))) as [Hlen|Hlen]; [|eauto].
  assert (data <> []) as Hne by (intros ->; cbn in Hlen; lia).
  pose proof (nsend_split data Hne) as (_ & Hd & _). cbv zeta in Hd.
  match goal with |- context [is_LP_OK ?s] => destruct (is_LP_OK s) end;
    cbn [negb]; [|eauto].
  match goal with |- context [is_OK ?s] => destruct (is_OK s) end;
    cbn [negb]; [|eauto].
  match goal with |- context [blkdata_loop _ _ fuel ?m ?d] =>
    destruct (IH m d) as [[st sent] ->]; [lia|eauto] end.
Qed.

Lemma blkdata_loop_refused fuel : forall n data status sent,
  blkdata_loop DBUFMAX ldm fuel n data = Some (status, sent) ->
  status = LP_OK
  \/ exists r, last sent = Some r /\ (accepted ldm r -> False).
Proof.
  induction fuel as [|fuel IH]; intros n data status sent;
    cbn [blkdata_loop]; [discriminate|].
  destruct (0 <? Z.of_nat (length data)); [|intros [= <- <-]; by left].
  match goal with |- context [is_LP_OK (getStatus (re_status (ldm ?q)))] =>
    set (r := q) end.
  destruct (is_LP_OK (getStatus (re_status (ldm r)))) eqn:Es; cbn [negb].
  2:{ intros [= <- <-]. right. exists r. split; [done|]. intros [E _].
      apply getStatus_OK in E. congruence. }
  destruct (is_OK (code (ldm r))) eqn:Ec; cbn [negb].
  2:{ intros [= <- <-]. right. exists r. split; [done|]. intros [_ E].
      apply is_OK_true in E. congruence. }
  match goal with |- context [blkdata_loop _ _ fuel ?m ?d] =>
    destruct (blkdata_loop DBUFMAX ldm fuel m d) as [[st' sent']|] eqn:El;
      [|discriminate] end.
  intros [= <- <-]. apply IH in El as [->|(r' & Hl & Hr')]; [by left|].
  right. exists r'. split; [|done]. destruct sent'; [done|exact Hl].
Qed.

End Ldm5Facts.

Lemma all_BLKDATA (sent : list request) :
  (forall i r, sent !! i = Some r -> exists pkt, r = BLKDATA pkt) ->
  exists pkts, sent = BLKDATA <$> pkts.
Proof.
  induction sent as [|r sent IH]; intros H; [by exists []|].
  destruct (H 0%nat r eq_refl) as [pkt ->].
  destruct IH as [pkts ->]; [intros i r Hr; apply (H (S i) r Hr)|].
  by exists (pkt :: pkts).
Qed.

(** X10: when [my_csbd_5] returns success, it has sent a COMINGSOON and then
    the product's bytes in order: the packets' data, put end to end, are the
    product; packet [i] has number [i]; all packets but the last carry
    DBUFMAX bytes, none is empty or larger; and each was answered OK. *)
Theorem my_csbd_5_delivers_the_product DBUFMAX ldm fuel data sent :
  0 < DBUFMAX ->
  my_csbd_5 DBUFMAX ldm fuel data = Some (LP_OK, sent) ->
  exists pkts,
    sent = COMINGSOON (Z.of_nat (length data)) DBUFMAX :: (BLKDATA <$> pkts)
    /\ concat (dbuf <$> pkts) = data
    /\ forall i pkt, pkts !! i = Some pkt ->
         pktnum pkt = Z.of_nat i mod 2 ^ 32
         /\ 0 < Z.of_nat (length (dbuf pkt)) <= DBUFMAX
         /\ ((S i < length pkts)%nat ->
             Z.of_nat (length (dbuf pkt)) = DBUFMAX)
         /\ accepted ldm (BLKDATA pkt).
Proof.
  intros Hpos. unfold my_csbd_5. cbv zeta.
  set (soon := COMINGSOON (Z.of_nat (length data)) DBUFMAX).
  destruct (is_LP_OK (getStatus (re_status (ldm soon)))) eqn:Es; cbn [negb].
  2:{ intros [= E _]. rewrite E in Es. done. }
  destruct (is_OK (code (ldm soon))) eqn:Ec; cbn [negb].
  2:{ destruct (code (ldm soon)); discriminate. }
  destruct (blkdata_loop DBUFMAX ldm fuel 0 data) as [[st tl]|] eqn:El;
    [|discriminate].
  intros [= -> <-].
  apply blkdata_loop_sent in El as ((rest & Hrest & Hok) & Hall & Hi);
    [|done|lia].
  rewrite (Hok eq_refl), app_nil_r in Hrest.
  destruct (all_BLKDATA tl) as [pkts ->].
  { intros i r Hr. destruct (Hi i r Hr) as ((p & -> & _) & _). by exists p. }
  exists pkts. split; [done|]. split.
  - rewrite Hrest, <- list_fmap_compose. reflexivity.
  - intros i pkt Hp.
    assert ((BLKDATA <$> pkts) !! i = Some (BLKDATA pkt)) as Hr
      by (by rewrite list_lookup_fmap, Hp).
    destruct (Hi i _ Hr) as ((p & [= <-] & Hn) & Hmid & Hlast).
    rewrite Forall_forall in Hall.
    split; [exact Hn|]. split; [|split].
    + apply (Hall (BLKDATA pkt)). by eapply list_elem_of_lookup_2.
    + intros Hlt. apply Hmid. by rewrite length_fmap.
    + by apply Hlast.
Qed.

Lemma my_csbd_5_delivers_the_product_witness :
  exists pkts,
    [COMINGSOON 10 4;
     BLKDATA {| pktnum := 0; dbuf := [1; 2; 3; 4] |};
     BLKDATA {| pktnum := 1; dbuf := [5; 6; 7; 8] |};
     BLKDATA {| pktnum := 2; dbuf := [9; 10] |}]
    = COMINGSOON 10 4 :: (BLKDATA <$> pkts)
    /\ concat (dbuf <$> pkts) = [1; 2; 3; 4; 5; 6; 7; 8; 9; 10].
Proof.
  destruct (my_csbd_5_delivers_the_product 4
    (fun _ => {| re_status := RPC_SUCCESS; code := OK |}) 11%nat
    [1; 2; 3; 4; 5; 6; 7; 8; 9; 10]
    [COMINGSOON 10 4;
     BLKDATA {| pktnum := 0; dbuf := [1; 2; 3; 4] |};
     BLKDATA {| pktnum := 1; dbuf := [5; 6; 7; 8] |};
     BLKDATA {| pktnum := 2; dbuf := [9; 10] |}])
    as (pkts & H1 & H2 & _);
    [lia | vm_compute; reflexivity | exists pkts; split; assumption].
Defined.

(** X11: with enough turns of its loop, [my_csbd_5] returns; what it has
    sent is the start of the product, in order; every message but the last
    was answered OK; and the status is success exactly when the last one was
    answered OK too: nothing is sent after a message that failed or was
    refused. *)
Theorem my_csbd_5_stops_at_the_first_refusal DBUFMAX ldm fuel data :
  0 < DBUFMAX -> (length data < fuel)%nat ->
  exists status sent,
    my_csbd_5 DBUFMAX ldm fuel data = Some (status, sent)
    /\ (exists rest, data = concat (data_of <$> sent) ++ rest)
    /\ (forall i r, sent !! i = Some r -> (S i < length sent)%nat ->
          accepted ldm r)
    /\ (status = LP_OK <-> Forall (accepted ldm) sent).
Proof.
  intros Hpos Hfuel. unfold my_csbd_5. cbv zeta.
  set (soon := COMINGSOON (Z.of_nat (length data)) DBUFMAX).
  assert (forall st, (st = LP_OK -> False) -> (accepted ldm soon -> False) ->
    (exists rest, data = concat (data_of <$> [soon]) ++ rest)
    /\ (forall i r, [soon] !! i = Some r -> (S i < length [soon])%nat ->
          accepted ldm r)
    /\ (st = LP_OK <-> Forall (accepted ldm) [soon])) as Hone.
  { intros st Hst Hs. split; [by exists data|]. split.
    - intros i r _. cbn. lia.
    - split; [intros E; by apply Hst in E|].
      intros H. rewrite Forall_cons in H. destruct H as [H _]. by apply Hs in H. }
  destruct (is_LP_OK (getStatus (re_status (ldm soon)))) eqn:Es; cbn [negb].
  2:{ eexists _, _. split; [reflexivity|]. apply Hone.
      - intros E. rewrite E in Es. done.
      - intros [E _]. apply getStatus_OK in E. congruence. }
  destruct (is_OK (code (ldm soon))) eqn:Ec; cbn [negb].
  2:{ assert (accepted ldm soon -> False) as Hs
        by (intros [_ E]; apply is_OK_true in E; congruence).
      destruct (code (ldm soon)); eexists _, _;
        (split; [reflexivity | by apply Hone]). }
  apply getStatus_OK in Es. apply is_OK_true in Ec.
  destruct (blkdata_loop_returns DBUFMAX ldm Hpos fuel 0 data Hfuel)
    as [[st tl] El].
  rewrite El. exists st, (soon :: tl). split; [reflexivity|].
  pose proof (blkdata_loop_refused DBUFMAX ldm fuel 0 data st tl El) as Hlast.
  apply blkdata_loop_sent in El as ((rest & Hrest & _) & _ & Hi);
    [|done|lia].
  split; [by exists rest|]. split.
  - intros [|i] r Hr Hlt; cbn in Hr, Hlt.
    + injection Hr as <-. by split.
    + destruct (Hi i r Hr) as (_ & Hmid & _). apply Hmid. lia.
  - split.
    + intros ->. apply Forall_cons_2; [by split|].
      apply Forall_lookup. intros i r Hr. by apply (Hi i r Hr).
    + intros H. rewrite Forall_cons in H. destruct H as [_ H].
      destruct Hlast as [->|(r & Hl & Hr)]; [done|]. exfalso. apply Hr.
      rewrite Forall_forall in H. apply H.
      rewrite last_lookup in Hl. by eapply list_elem_of_lookup_2.
Qed.

Lemma my_csbd_5_stops_at_the_first_refusal_witness :
  exists status sent,
    my_csbd_5 4 (fun r => match r with
                          | BLKDATA {| pktnum := 1 |} =>
                              {| re_status := RPC_TIMEDOUT; code := OK |}
                          | _ => {| re_status := RPC_SUCCESS; code := OK |}
                          end) 11%nat [1; 2; 3; 4; 5; 6; 7; 8; 9; 10]
    = Some (status, sent)
    /\ (exists rest,
          [1; 2; 3; 4; 5; 6; 7; 8; 9; 10] = concat (data_of <$> sent) ++ rest).
Proof.
  destruct (my_csbd_5_stops_at_the_first_refusal 4
    (fun r => match r with
              | BLKDATA {| pktnum := 1 |} =>
                  {| re_status := RPC_TIMEDOUT; code := OK |}
              | _ => {| re_status := RPC_SUCCESS; code := OK |}
              end) 11%nat [1; 2; 3; 4; 5; 6; 7; 8; 9; 10])
    as (status & sent & H1 & H2 & _); [lia | cbn; lia |].
  exists status, sent. split; assumption.
Defined.

(** X12: [my_send_5] never puts more than DBUFMAX bytes of the product in
    one message, whether it sends one HEREIS or a COMINGSOON and BLKDATA
    packets. *)
Theorem my_send_5_messages_hold_at_most_DBUFMAX
    DBUFMAX ldm fuel data status sent :
  0 < DBUFMAX ->
  my_send_5 DBUFMAX ldm fuel data = Some (status, sent) ->
  Forall (fun r => Z.of_nat (length (data_of r)) <= DBUFMAX) sent.
Proof.
  intros Hpos. unfold my_send_5.
  destruct (Z.ltb_spec DBUFMAX (Z.of_nat (length data))) as [Hlt|Hle].
  - unfold my_csbd_5. cbv zeta.
    set (soon := COMINGSOON (Z.of_nat (length data)) DBUFMAX).
    assert (Forall (fun r => Z.of_nat (length (data_of r)) <= DBUFMAX) [soon])
      as Hone by (apply Forall_cons_2; [cbn; lia | apply Forall_nil_2]).
    destruct (is_LP_OK (getStatus (re_status (ldm soon)))); cbn [negb];
      [|by intros [= <- <-]].
    destruct (is_OK (code (ldm soon))); cbn [negb];
      [|destruct (code (ldm soon)); by intros [= <- <-]].
    destruct (blkdata_loop DBUFMAX ldm fuel 0 data) as [[st tl]|] eqn:El;
      [|discriminate].
    intros [= <- <-]. apply Forall_cons_2; [cbn; lia|].
    apply blkdata_loop_sent in El as (_ & Hall & _); [|done|lia].
    eapply Forall_impl; [exact Hall|]. cbn. intros; lia.
  - intros [= E]. apply Forall_forall. intros r Hr.
    assert (r = HEREIS data) as ->.
    { unfold my_hereis_5 in E. cbv zeta in E.
      repeat match type of E with
             | context [if ?b then _ else _] => destruct b
             | context [match code ?c with _ => _ end] => destruct (code c)
             end; injection E as <- <-; by apply list_elem_of_singleton in Hr. }
    exact Hle.
Qed.

Lemma my_send_5_messages_hold_at_most_DBUFMAX_witness :
  Forall (fun r => Z.of_nat (length (data_of r)) <= 4)
    [COMINGSOON 6 4;
     BLKDATA {| pktnum := 0; dbuf := [1; 2; 3; 4] |};
     BLKDATA {| pktnum := 1; dbuf := [5; 6] |}].
Proof.
  apply (my_send_5_messages_hold_at_most_DBUFMAX 4
    (fun _ => {| re_status := RPC_SUCCESS; code := OK |}) 7%nat
    [1; 2; 3; 4; 5; 6] LP_OK); [lia | vm_compute; reflexivity].
Defined.

(** X13: [lp_new] sets [*instance] exactly when it returns success, and then
    to a proxy of the version it connected with; it tries version 6 first
    and version 5 only when version 6 was refused for its version; and it
    returns [LP_LDM_ERROR] only when both versions were refused for their
    version. *)
Theorem lp_new_negotiates_the_version env :
  (new_status (lp_new env) = LP_OK <-> exists v, instance (lp_new env) = Some v)
  /\ (forall v, instance (lp_new env) = Some v ->
        (v = 6 \/ v = 5) /\ ldm_clnttcp_create_vers env v = None
        /\ last (tried (lp_new env)) = Some v)
  /\ (5 ∈ tried (lp_new env) ->
        ldm_clnttcp_create_vers env 6 = Some LDM_CLNT_BAD_VERSION)
  /\ (new_status (lp_new env) = LP_LDM_ERROR ->
        ldm_clnttcp_create_vers env 6 = Some LDM_CLNT_BAD_VERSION
        /\ ldm_clnttcp_create_vers env 5 = Some LDM_CLNT_BAD_VERSION).
Proof.
  unfold lp_new.
  destruct (malloc_ok env), (strdup_ok env),
    (ldm_clnttcp_create_vers env 6) as [[]|] eqn:E6,
    (ldm_clnttcp_create_vers env 5) as [[]|] eqn:E5;
    cbn; repeat (intros; split); intros;
    repeat match goal with H : exists _, _ |- _ => destruct H end;
    simplify_eq; eauto; set_solver.
Qed.

End LdmProxyFacts.

(** ** protocol2/remote.c: the RPC buffer sizes of a peer *)

Module RemoteFacts.
Import Remote.

Lemma clamp_so_buf MAX sock opt :
  0 < MAX < 2 ^ 31 ->
  (forall v, getsockopt sock opt = Some v -> - 2 ^ 31 <= v < 2 ^ 31) ->
  clamp MAX (so_buf MAX sock opt) = recorded MAX sock opt
  /\ 0 < recorded MAX sock opt <= MAX.
Proof.
  intros HM Hv. unfold clamp, so_buf, recorded, u_int.
  destruct (getsockopt sock opt) as [v|].
  - specialize (Hv v eq_refl).
    destruct (Z.ltb_spec v 4096), (Z.leb_spec 4096 v); try lia; cbn [andb].
    + destruct (setsockopt sock opt MAX).
      * rewrite Z.mod_small by lia. rewrite Z.ltb_irrefl. cbn [orb].
        destruct (Z.eqb_spec MAX 0); lia.
      * rewrite Z.eqb_refl, orb_true_r. lia.
    + rewrite Z.mod_small by lia.
      destruct (Z.ltb_spec MAX v), (Z.leb_spec v MAX); try lia; cbn [orb].
      * lia.
      * destruct (Z.eqb_spec v 0); lia.
  - rewrite Z.eqb_refl, orb_true_r. lia.
Qed.

(** X14: when [setremote] records a new peer, the two RPC buffer sizes it
    stores lie between 1 and MAX_RPC_BUF_NEEDED: each is the socket's own
    size when [getsockopt] gives one from 4096 to MAX_RPC_BUF_NEEDED, and
    MAX_RPC_BUF_NEEDED otherwise, whether or not [setsockopt] succeeds. *)
Theorem setremote_buffer_sizes MAX remote s_addr sock :
  0 < MAX < 2 ^ 31 ->
  (forall opt v, getsockopt sock opt = Some v -> - 2 ^ 31 <= v < 2 ^ 31) ->
  s_addr = 0 \/ s_addr <> addr remote ->
  sendsz (setremote MAX remote s_addr sock) = recorded MAX sock SO_SNDBUF
  /\ recvsz (setremote MAX remote s_addr sock) = recorded MAX sock SO_RCVBUF
  /\ 0 < sendsz (setremote MAX remote s_addr sock) <= MAX
  /\ 0 < recvsz (setremote MAX remote s_addr sock) <= MAX.
Proof.
  intros HM Hv Hnew. unfold setremote.
  assert (negb (s_addr =? 0) && (s_addr =? addr remote) = false) as ->.
  { destruct Hnew as [->|Hne]; [reflexivity|].
    apply Z.eqb_neq in Hne. rewrite Hne. apply andb_false_r. }
  cbn [sendsz recvsz].
  destruct (clamp_so_buf MAX sock SO_SNDBUF HM (Hv SO_SNDBUF)) as [-> ?].
  destruct (clamp_so_buf MAX sock SO_RCVBUF HM (Hv SO_RCVBUF)) as [-> ?].
  auto.
Qed.

Lemma setremote_buffer_sizes_witness :
  sendsz (setremote 16384 zeroed 167772161
            {| getsockopt := fun opt =>
                 match opt with SO_SNDBUF => Some 0 | SO_RCVBUF => Some 8192 end;
               setsockopt := fun _ _ => false |}) = 16384
  /\ recvsz (setremote 16384 zeroed 167772161
            {| getsockopt := fun opt =>
                 match opt with SO_SNDBUF => Some 0 | SO_RCVBUF => Some 8192 end;
               setsockopt := fun _ _ => false |}) = 8192.
Proof.
  destruct (setremote_buffer_sizes 16384 zeroed 167772161
    {| getsockopt := fun opt =>
         match opt with SO_SNDBUF => Some 0 | SO_RCVBUF => Some 8192 end;
       setsockopt := fun _ _ => false |}) as (H1 & H2 & _).
  - lia.
  - intros [] v [= <-]; lia.
  - right. discriminate.
  - split; [exact H1 | exact H2].
Defined.

End RemoteFacts.

(** ** mcast_lib/C/down7_manager.c: starting all downstream LDM-7s *)

Module D7mgrFacts.
Import D7mgr.

Lemma add_all_pid calls : Forall (fun e => pid e = -1) (add_all calls).
Proof.
  unfold add_all.
  assert (forall top, Forall (fun e => pid e = -1) top ->
    Forall (fun e => pid e = -1)
      (fold_left (fun top c =>
         (d7mgr_add top (add_ft c) (add_ul7 c) (add_iface c)
            (add_log_malloc c) (add_sa_clone c) (add_strdup c)).2) calls top))
    as G.
  { induction calls as [|c calls IH]; intros top Ht; cbn [fold_left]; [done|].
    apply IH. unfold d7mgr_add, elt_new.
    destruct (add_log_malloc c), (add_sa_clone c), (add_strdup c); cbn; auto. }
  apply G, Forall_nil_2.
Qed.

Lemma stop_all_running elts :
  Forall (fun e => 0 < pid e) elts ->
  Forall (fun e => pid e = -1) (stop_all elts).1
  /\ (stop_all elts).2 = pid <$> elts.
Proof.
  induction elts as [|e elts IH]; intros H; cbn [stop_all].
  - split; [apply Forall_nil_2 | done].
  - apply Forall_cons in H as [He H]. destruct (IH H) as [IH1 IH2].
    unfold elt_stop. apply Z.ltb_lt in He. rewrite He.
    destruct (stop_all elts) as [next' ks]. cbn in *.
    split; [by apply Forall_cons_2 | by rewrite IH2].
Qed.

Lemma start_loop_spec ldmfork elts : forall n before,
  (forall i, ldmfork i = -1 \/ 0 < ldmfork i) ->
  pid <$> before = ldmfork <$> seq 0 n ->
  (forall i, (i < n)%nat -> 0 < ldmfork i) ->
  Forall (fun e => pid e = -1) elts ->
  exists status top' killed,
    start_loop ldmfork n before elts = Some (status, top', killed)
    /\ ((status = LDM7_OK /\ killed = []
         /\ pid <$> top' = ldmfork <$> seq 0 (n + length elts)
         /\ forall i, (i < n + length elts)%nat -> 0 < ldmfork i)
        \/ (status = LDM7_SYSTEM
            /\ Forall (fun e => pid e = -1) top'
            /\ exists m, (m < n + length elts)%nat
                 /\ ldmfork m = -1
                 /\ (forall i, (i < m)%nat -> 0 < ldmfork i)
                 /\ killed = ldmfork <$> seq 0 m)).
Proof.
  induction elts as [|elt next IH]; intros n before Hf Hb Hpos He;
    cbn [start_loop].
  - exists LDM7_OK, before, []. split; [done|]. left.
    cbn [length]. rewrite Nat.add_0_r. auto.
  - apply Forall_cons in He as [He Hnext]. unfold elt_start.
    destruct (Z.eqb_spec (ldmfork n) (-1)) as [E|E].
    + assert (Forall (fun e => 0 < pid e) before) as Hrun.
      { apply Forall_lookup. intros i e Hi.
        assert ((pid <$> before) !! i = Some (pid e)) as Hp
          by (by rewrite list_lookup_fmap, Hi).
        rewrite Hb, list_lookup_fmap in Hp.
        destruct (seq 0 n !! i) as [j|] eqn:Ej; [|done].
        apply lookup_seq in Ej as [-> ?]. injection Hp as <-. by apply Hpos. }
      destruct (stop_all_running before Hrun) as [H1 H2].
      destruct (stop_all before) as [stopped killed]. cbn in H1, H2.
      exists LDM7_SYSTEM, (stopped ++ elt :: next), killed.
      split; [done|]. right. split; [done|]. split.
      * apply Forall_app. split; [done|]. by apply Forall_cons_2.
      * exists n. cbn [length]. repeat split; [lia|done|done|].
        by rewrite H2, Hb.
    + destruct (Hf n) as [?|Hn]; [done|].
      destruct (Z.eqb_spec (ldmfork n) 0); [lia|].
      set (elt' := {| ul7 := ul7 elt; iface := iface elt; ft := ft elt;
                      pid := ldmfork n |}).
      destruct (IH (S n) (before ++ [elt']) Hf) as (st & top' & k & -> & H);
        [| |done|].
      * rewrite fmap_app, Hb, seq_S, fmap_app. reflexivity.
      * intros i Hi. destruct (decide (i = n)) as [->|]; [done|].
        apply Hpos. lia.
      * exists st, top', k. split; [done|]. cbn [length].
        replace (n + S (length next))%nat with (S n + length next)%nat by lia.
        exact H.
Qed.

(** X15: [d7mgr_startAll] starts all or none.  On a list of elements that
    are not running, in the parent process, it either returns success with
    every element holding the identifier of the child forked for it and no
    signal sent, or returns [LDM7_SYSTEM] at the first [ldmfork] that fails,
    every child forked before has been sent [SIGTERM], and no element holds
    a process identifier. *)
Theorem d7mgr_startAll_starts_all_or_none top ldmfork :
  Forall (fun e => pid e = -1) top ->
  (forall i, ldmfork i = -1 \/ 0 < ldmfork i) ->
  exists status top' killed,
    d7mgr_startAll top ldmfork = Some (status, top', killed)
    /\ ((status = LDM7_OK /\ killed = []
         /\ pid <$> top' = ldmfork <$> seq 0 (length top)
         /\ forall i, (i < length top)%nat -> 0 < ldmfork i)
        \/ (status = LDM7_SYSTEM
            /\ Forall (fun e => pid e = -1) top'
            /\ exists m, (m < length top)%nat
                 /\ ldmfork m = -1
                 /\ (forall i, (i < m)%nat -> 0 < ldmfork i)
                 /\ killed = ldmfork <$> seq 0 m)).
Proof.
  intros Ht Hf. unfold d7mgr_startAll.
  apply (start_loop_spec ldmfork top 0 [] Hf); [done | intros; lia | done].
Qed.

Lemma d7mgr_startAll_starts_all_or_none_witness :
  exists status top' killed,
    d7mgr_startAll
      (add_all [ {| add_ft := 1; add_ul7 := "a"; add_iface := "0.0.0.0";
                    add_log_malloc := true; add_sa_clone := true;
                    add_strdup := true |};
                 {| add_ft := 2; add_ul7 := "b"; add_iface := "0.0.0.0";
                    add_log_malloc := true; add_sa_clone := true;
                    add_strdup := true |} ])
      (fun i => match i with O => 4711 | _ => -1 end)
    = Some (status, top', killed).
Proof.
  destruct (d7mgr_startAll_starts_all_or_none
    (add_all [ {| add_ft := 1; add_ul7 := "a"; add_iface := "0.0.0.0";
                  add_log_malloc := true; add_sa_clone := true;
                  add_strdup := true |};
               {| add_ft := 2; add_ul7 := "b"; add_iface := "0.0.0.0";
                  add_log_malloc := true; add_sa_clone := true;
                  add_strdup := true |} ])
    (fun i => match i with O => 4711 | _ => -1 end))
    as (status & top' & killed & H & _).
  - apply add_all_pid.
  - intros [|i]; [right; lia | by left].
  - by exists status, top', killed.
Defined.

End D7mgrFacts.

(** ** misc/Future.c: setting and getting the result *)

Module FutureFacts.
Import Future.

Lemma valid_insert h f fut fut' :
  h !! f = Some fut -> magic fut' = magic fut ->
  valid (<[f := fut']> h) f = valid h f.
Proof.
  intros Hf Hm. unfold valid. by rewrite lookup_insert_eq, Hf, Hm.
Qed.

(** X16: once [future_setResult] has been called on a valid future,
    [future_getAndFree] returns at once and frees the future; it returns
    [ECANCELED] if the job was canceled, else [EPERM] if the run status is
    not 0, else 0, and only in that last case stores the result through a
    non-null pointer. *)
Theorem future_getAndFree_after_setResult
    h f runStatus' result' wasCanceled' result_ptr :
  valid h f = true ->
  exists h',
    future_setResult h f runStatus' result' wasCanceled' = Some h'
    /\ future_getAndFree h' f result_ptr
       = Some (Returns
                 (if wasCanceled' then ECANCELED
                  else if runStatus' =? 0 then OK else EPERM)
                 (if negb wasCanceled' && (runStatus' =? 0) && result_ptr
                  then Some result' else None),
               delete f h).
Proof.
  intros Hv. unfold future_setResult. rewrite Hv.
  assert (exists fut, h !! f = Some fut) as [fut Hf].
  { unfold valid in Hv. destruct (h !! f); [eauto|done]. }
  rewrite Hf. cbn [mbind option_bind]. eexists. split; [reflexivity|].
  unfold future_getAndFree, future_getResult, future_free.
  rewrite (valid_insert h f fut) by done. rewrite Hv.
  assert ((f =? 0) = false) as ->.
  { unfold valid in Hv. rewrite Hf in Hv. by destruct (f =? 0). }
  rewrite lookup_insert_eq. cbn.
  destruct wasCanceled'; cbn; [by rewrite delete_insert_eq|].
  destruct (runStatus' =? 0); cbn; [|by rewrite delete_insert_eq].
  destruct result_ptr; cbn; by rewrite delete_insert_eq.
Qed.

Lemma future_getAndFree_after_setResult_witness :
  exists h',
    future_setResult (future_new ∅ 64 true STATE_RUNNING).2 64 0 4096 false
    = Some h'
    /\ future_getAndFree h' 64 true
       = Some (Returns OK (Some 4096),
               delete 64 (future_new ∅ 64 true STATE_RUNNING).2).
Proof.
  apply (future_getAndFree_after_setResult
           (future_new ∅ 64 true STATE_RUNNING).2 64 0 4096 false true).
  reflexivity.
Defined.

End FutureFacts.

(** ** log/log2log4c.c: copying, trimming, levels and facilities *)

Module LogFacts.
Import Log.

#[local] Set Warnings "-clear-no-such-hyp".

Lemma cstr_app (a b : list Z) :
  Forall (fun c => c <> 0) a -> cstr (a ++ b) = a ++ cstr b.
Proof.
  induction a as [|c a IH]; intros H; [done|].
  apply Forall_cons in H as [Hc H]. cbn.
  destruct (Z.eqb_spec c 0); [done|]. by rewrite IH.
Qed.

Lemma cstr_cut (n : nat) : forall (src tl : list Z),
  (n < length src)%nat ->
  cstr (<[n := 0]> (take (S n) src ++ tl)) = take n (cstr src).
Proof.
  induction n as [|n IH]; intros src tl Hn.
  - destruct src as [|c src]; [cbn in Hn; lia|]. reflexivity.
  - destruct src as [|c src]; [cbn in Hn; lia|]. cbn in Hn.
    cbn [take app]. cbn [cstr]. change (<[S n := 0]> (c :: ?l)) with
      (c :: <[n := 0]> l). cbn [cstr].
    destruct (c =? 0); [done|]. cbn [take]. f_equal. apply IH. lia.
Qed.

(** X17: [string_copy] leaves in [dst] the string of [src] cut to at most
    [size - 1] characters, whatever [dst] held, and does not touch the bytes
    of [dst] from [size] on. *)
Theorem string_copy_cuts_the_string dst src size :
  (0 < size <= length dst)%nat -> (size <= length src)%nat ->
  exists dst',
    string_copy dst src size = Some dst'
    /\ cstr dst' = take (size - 1) (cstr src)
    /\ length dst' = length dst
    /\ drop size dst' = drop size dst.
Proof.
  intros Hd Hs. unfold string_copy. destruct size as [|n]; [lia|].
  destruct (Nat.ltb_spec (length dst) (S n)); [lia|].
  destruct (Nat.ltb_spec (length src) (S n)); [lia|]. cbn [orb].
  eexists. split; [reflexivity|]. split; [|split].
  - rewrite cstr_cut by lia. f_equal. lia.
  - rewrite length_insert, length_app, length_take, length_drop. lia.
  - rewrite drop_insert_lt by lia.
    rewrite drop_app_length'; [done|]. rewrite length_take. lia.
Qed.

Lemma string_copy_cuts_the_string_witness :
  exists dst',
    string_copy [120; 120; 120; 120; 120; 120] [108; 100; 109; 100; 0; 7] 4
    = Some dst'
    /\ cstr dst' = [108; 100; 109].
Proof.
  destruct (string_copy_cuts_the_string
    [120; 120; 120; 120; 120; 120] [108; 100; 109; 100; 0; 7] 4)
    as (dst' & H1 & H2 & _); [cbn; lia | cbn; lia |].
  exists dst'. split; [exact H1 | exact H2].
Defined.

(** X18: [log_layout_format] leaves a string that fits the event's buffer:
    the whole text when it is shorter than the buffer, and otherwise its
    first [bufsize - 4] characters followed by three dots. *)
Theorem log_layout_format_trims_with_dots buf formatted :
  (4 <= length buf)%nat -> Forall (fun c => c <> 0) formatted ->
  exists buf',
    log_layout_format buf formatted = Some buf'
    /\ length buf' = length buf
    /\ cstr buf'
       = if (length formatted <? length buf)%nat then formatted
         else take (length buf - 4) formatted ++ [46; 46; 46].
Proof.
  intros Hb Hf. unfold log_layout_format, snprintf.
  destruct (length buf) as [|m] eqn:Eb; [lia|].
  destruct (Nat.ltb_spec (length formatted) (S m)) as [Hlt|Hge].
  - destruct (Z.leb_spec (Z.of_nat (S m)) (Z.of_nat (length formatted)));
      [lia|].
    eexists. split; [reflexivity|].
    rewrite Nat.min_l by lia. rewrite firstn_all. split.
    + repeat rewrite ?length_app, ?length_drop, ?length_take.
      cbn [length]. lia.
    + rewrite cstr_app by done. cbn. apply app_nil_r.
  - destruct (Z.leb_spec (Z.of_nat (S m)) (Z.of_nat (length formatted)));
      [|lia].
    destruct (Nat.ltb_spec (S m) 4); [lia|].
    eexists. split; [reflexivity|].
    rewrite Nat.min_r by lia. unfold strcpy_dots.
    assert (take (S m - 4) (take m formatted ++ [0] ++ drop (S m) buf)
            = take (S m - 4) formatted) as ->.
    { rewrite take_app_le by (rewrite length_take; lia).
      rewrite take_take. f_equal. lia. }
    split.
    + repeat rewrite ?length_app, ?length_drop, ?length_take.
      unfold dots. cbn [length]. lia.
    + rewrite cstr_app by (by apply Forall_take). reflexivity.
Qed.

Lemma log_layout_format_trims_with_dots_witness :
  exists buf',
    log_layout_format [0; 0; 0; 0; 0; 0] [112; 113; 91; 49; 93; 32; 72; 10]
    = Some buf'
    /\ cstr buf' = [112; 113; 46; 46; 46].
Proof.
  destruct (log_layout_format_trims_with_dots
    [0; 0; 0; 0; 0; 0] [112; 113; 91; 49; 93; 32; 72; 10])
    as (buf' & H1 & _ & H2).
  - cbn. lia.
  - repeat apply Forall_cons_2; try apply Forall_nil_2; discriminate.
  - exists buf'. split; [exact H1 | exact H2].
Defined.

(** X19: [log_set_facility] accepts [LOG_USER] and every number from
    [LOG_LOCAL0] to [LOG_LOCAL7], and nothing else; since only the eight
    [LOG_LOCAL]n and [LOG_USER] have an appender, an accepted number that is
    none of them is answered with success and leaves the null appender in
    [log_appender_syslog]. *)
Theorem log_set_facility_accepts_the_range
    LOG_USER LOG_LOCAL current facility :
  LOG_LOCAL 0%nat <= LOG_LOCAL 7%nat ->
  - 2 ^ 31 <= (LOG_LOCAL 0%nat - facility) * (LOG_LOCAL 7%nat - facility)
           < 2 ^ 31 ->
  exists status app,
    log_set_facility LOG_USER LOG_LOCAL current facility = Some (status, app)
    /\ (status = 0 <->
        facility = LOG_USER
        \/ LOG_LOCAL 0%nat <= facility <= LOG_LOCAL 7%nat)
    /\ (status = 0 ->
        app = log_get_syslog_appender LOG_USER LOG_LOCAL facility)
    /\ (status = 0 -> facility <> LOG_USER ->
        (forall n, (n < 8)%nat -> facility <> LOG_LOCAL n) -> app = None).
Proof.
  intros Hle Hfit. unfold log_set_facility, int_mul.
  destruct (Z.eqb_spec facility LOG_USER) as [E|E]; cbn [negb].
  - eexists _, _. split; [reflexivity|]. repeat split; auto. intros _ H. done.
  - destruct (Z.leb_spec (- 2 ^ 31)
      ((LOG_LOCAL 0%nat - facility) * (LOG_LOCAL 7%nat - facility))); [|lia].
    destruct (Z.ltb_spec
      ((LOG_LOCAL 0%nat - facility) * (LOG_LOCAL 7%nat - facility))
      (2 ^ 31)); [|lia].
    cbn [andb mbind option_bind].
    destruct (Z.ltb_spec 0
      ((LOG_LOCAL 0%nat - facility) * (LOG_LOCAL 7%nat - facility)))
      as [Hp|Hp]; eexists _, _; (split; [reflexivity|]).
    + repeat split; try done. intros [?|[? ?]]; [done|]. nia.
    + repeat split; try done.
      * intros _. right. nia.
      * intros _ _ Hn. unfold log_get_syslog_appender.
        repeat match goal with
               | |- context [facility =? LOG_LOCAL ?n] =>
                   destruct (Z.eqb_spec facility (LOG_LOCAL n)) as [Ef|_];
                     [exfalso; apply (Hn n); [lia|exact Ef]|]
               end.
        destruct (Z.eqb_spec facility LOG_USER); done.
Qed.

Lemma log_set_facility_accepts_the_range_witness :
  exists status app,
    log_set_facility 8 (fun n => 128 + 8 * Z.of_nat n)
      (Some appender_syslog_user) 129 = Some (status, app)
    /\ (status = 0 <-> 129 = 8 \/ 128 <= 129 <= 184).
Proof.
  destruct (log_set_facility_accepts_the_range 8
    (fun n => 128 + 8 * Z.of_nat n) (Some appender_syslog_user) 129)
    as (status & app & H1 & H2 & _); [cbn; lia | cbn; lia |].
  exists status, app. split; [exact H1 | exact H2].
Defined.

(** X20: [log_roll_level] goes round the five levels: while [set_level]
    succeeds, the level after a call differs from the one before, and five
    calls bring the first level back after passing through every level. *)
Theorem log_roll_level_cycles_through_the_levels (l : log_level_t) ncats :
  0 <= ncats <= MAX_CATEGORIES ->
  let roll l := log_roll_level l ncats in
  level_num (roll l) = (level_num l - 1) mod 5
  /\ roll (roll (roll (roll (roll l)))) = l
  /\ forall l', l' ∈ [l; roll l; roll (roll l); roll (roll (roll l));
                     roll (roll (roll (roll l)))].
Proof.
  intros Hn. cbv zeta. unfold log_roll_level, set_level.
  destruct (Z.ltb_spec ncats 0); [lia|].
  destruct (Z.ltb_spec MAX_CATEGORIES ncats); [lia|]. cbn [orb].
  destruct l; cbn; (split; [reflexivity|]); (split; [reflexivity|]);
    intros []; set_solver.
Qed.

Lemma log_roll_level_cycles_through_the_levels_witness :
  level_num (log_roll_level LOG_LEVEL_DEBUG 3) = 4.
Proof.
  apply (log_roll_level_cycles_through_the_levels LOG_LEVEL_DEBUG 3).
  unfold MAX_CATEGORIES. lia.
Defined.

End LogFacts.
